(** * kmscube: the atomic commit and explicit-fence frame loop (drm-atomic.c)

    A shallow embedding of [add_connector_property], [add_crtc_property],
    [add_plane_property], [drm_atomic_commit], [create_fence], [atomic_run]
    and the part of [init_drm_atomic] that initialises the fence state,
    followed by the properties of the frame pipeline.

    C integers are [Z] with the conversions written out.  The calls into
    libdrm, EGL and GBM are answered by a [World] (one answer per frame) and
    every such call is recorded as an [event], so that the order in which the
    loop talks to the GPU and to the display can be stated on the trace. *)

From Stdlib Require Import ZArith List String Ascii Bool Lia.
Import ListNotations.
Local Open Scope Z_scope.

(** ** C integer conversions *)

Module CInt.

(** Conversion to [uint32_t]. *)
Definition to_u32 (z : Z) : Z := z mod 2 ^ 32.

(** Conversion to [uint64_t]. *)
Definition to_u64 (z : Z) : Z := z mod 2 ^ 64.

(** Conversion to [int] (32 bits, two's complement). *)
Definition to_int (z : Z) : Z :=
  let u := z mod 2 ^ 32 in
  if u <? 2 ^ 31 then u else u - 2 ^ 32.

(** [x << n] computed in [int], as [drm->mode->hdisplay << 16] is after the
    promotion of the [uint16_t] operand. *)
Definition shl_int (x n : Z) : Z := to_int (Z.shiftl x n).

End CInt.
Import CInt.

(** ** Constants of the headers *)

Definition EINVAL : Z := 22.
Definition DRM_MODE_ATOMIC_NONBLOCK : Z := 512.        (* 0x0200 *)
Definition DRM_MODE_ATOMIC_ALLOW_MODESET : Z := 1024.  (* 0x0400 *)
Definition EGL_NO_NATIVE_FENCE_FD_ANDROID : Z := -1.
Definition EGL_NO_SYNC_KHR : Z := 0.
Definition NULL : Z := 0.

(** ** Data model *)

(** [drmModePropertyRes]: the two fields the program reads. *)
Record drmModePropertyRes := mkProp {
  name : string;
  prop_id : Z                      (* uint32_t *)
}.

(** [struct plane], [struct crtc] and [struct connector]: [props_info] holds
    [props->count_props] entries. *)
Record plane := mkPlane {
  plane_id : Z;                    (* plane->plane->plane_id *)
  plane_props_info : list drmModePropertyRes
}.

Record crtc := mkCrtc {
  crtc_props_info : list drmModePropertyRes
}.

Record connector := mkConnector {
  connector_props_info : list drmModePropertyRes
}.

Record drmModeModeInfo := mkMode {
  hdisplay : Z;                    (* uint16_t *)
  vdisplay : Z                     (* uint16_t *)
}.

(** [struct drm].  [kms_out_fence_ptr] stands for the address
    [&drm->kms_out_fence_fd]. *)
Record drm := mkDrm {
  fd : Z;
  drm_plane : plane;
  drm_crtc : crtc;
  drm_connector : connector;
  crtc_id : Z;                     (* uint32_t *)
  connector_id : Z;                (* uint32_t *)
  mode : drmModeModeInfo;
  kms_in_fence_fd : Z;             (* int *)
  kms_out_fence_fd : Z;            (* int *)
  kms_out_fence_ptr : Z
}.

Definition set_kms_in_fence_fd (v : Z) (d : drm) : drm :=
  mkDrm (fd d) (drm_plane d) (drm_crtc d) (drm_connector d) (crtc_id d)
        (connector_id d) (mode d) v (kms_out_fence_fd d) (kms_out_fence_ptr d).

Definition set_kms_out_fence_fd (v : Z) (d : drm) : drm :=
  mkDrm (fd d) (drm_plane d) (drm_crtc d) (drm_connector d) (crtc_id d)
        (connector_id d) (mode d) (kms_in_fence_fd d) v (kms_out_fence_ptr d).

(** ** libdrm's atomic request *)

(** One entry of a [drmModeAtomicReq]. *)
Record item := mkItem {
  object_id : Z;
  property_id : Z;
  value : Z                        (* uint64_t *)
}.

(** A [drmModeAtomicReq] is the sequence of its entries; its cursor is the
    length of the sequence. *)
Definition drmModeAtomicReq := list item.

Definition drmModeAtomicAlloc : drmModeAtomicReq := [].

(** libdrm's [drmModeAtomicAddProperty] (a library function, not part of the
    program): object id 0 and property id 0 are refused with [-EINVAL];
    otherwise the entry is appended and the new cursor returned.  Failure of
    the library's own allocation is left out. *)
Definition drmModeAtomicAddProperty (req : drmModeAtomicReq)
    (obj_id prop value : Z) : drmModeAtomicReq * Z :=
  if (obj_id =? 0) || (prop =? 0) then (req, - EINVAL)
  else (req ++ [mkItem obj_id prop value],
        to_int (Z.of_nat (List.length req) + 1)).

(** ** Property resolution *)

(** The search loop shared by the three [add_*_property] functions: the first
    entry whose name compares equal gives [prop_id] (stored in an [int]); when
    no entry matches, [prop_id] keeps its initial value [init]. *)
Fixpoint find_prop_id (nm : string) (init : Z)
    (props_info : list drmModePropertyRes) : Z :=
  match props_info with
  | [] => init
  | p :: rest =>
      if String.eqb (name p) nm then to_int (prop_id p)
      else find_prop_id nm init rest
  end.

(** [add_connector_property]: [prop_id] starts at 0. *)
Definition add_connector_property (d : drm) (req : drmModeAtomicReq)
    (obj_id : Z) (nm : string) (value : Z) : drmModeAtomicReq * Z :=
  let prop_id := find_prop_id nm 0 (connector_props_info (drm_connector d)) in
  if prop_id <? 0 then (req, - EINVAL)
  else drmModeAtomicAddProperty req obj_id (to_u32 prop_id) value.

(** [add_crtc_property]: [prop_id] starts at -1. *)
Definition add_crtc_property (d : drm) (req : drmModeAtomicReq)
    (obj_id : Z) (nm : string) (value : Z) : drmModeAtomicReq * Z :=
  let prop_id := find_prop_id nm (-1) (crtc_props_info (drm_crtc d)) in
  if prop_id <? 0 then (req, - EINVAL)
  else drmModeAtomicAddProperty req obj_id (to_u32 prop_id) value.

(** [add_plane_property]: [prop_id] starts at -1. *)
Definition add_plane_property (d : drm) (req : drmModeAtomicReq)
    (obj_id : Z) (nm : string) (value : Z) : drmModeAtomicReq * Z :=
  let prop_id := find_prop_id nm (-1) (plane_props_info (drm_plane d)) in
  if prop_id <? 0 then (req, - EINVAL)
  else drmModeAtomicAddProperty req obj_id (to_u32 prop_id) value.

(** Whether a name occurs in a property table. *)
Definition has_prop (nm : string) (props_info : list drmModePropertyRes) : bool :=
  existsb (fun p => String.eqb (name p) nm) props_info.

(** The crtc lacks MODE_ID or ACTIVE. *)
Definition crtc_lacks_modeset_property (d : drm) : Prop :=
  has_prop "MODE_ID" (crtc_props_info (drm_crtc d)) = false
  \/ has_prop "ACTIVE" (crtc_props_info (drm_crtc d)) = false.

(** Whether a plane property name resolves to an identifier that the library
    accepts for the plane. *)
Definition plane_resolves (d : drm) (nm : string) : bool :=
  let p := find_prop_id nm (-1) (plane_props_info (drm_plane d)) in
  (0 <? p) && negb (plane_id (drm_plane d) =? 0).

(** ** Events and the outside world *)

(** What the program asks of EGL, GBM, libdrm and the kernel, in program
    order.  The do/while around [eglClientWaitSyncKHR] (it re-issues the call
    until the status is [EGL_CONDITION_SATISFIED_KHR]) is one
    [EvClientWaitSync], carrying the number of calls that came back with
    another status. *)
Inductive event :=
| EvCreateSync (native_fd sync : Z)       (* eglCreateSyncKHR, its result *)
| EvWaitSync (sync : Z)                   (* eglWaitSyncKHR *)
| EvDraw (i : Z)                          (* egl->draw *)
| EvSwapBuffers                           (* eglSwapBuffers *)
| EvDupNativeFenceFD (sync fd : Z)        (* eglDupNativeFenceFDANDROID, its result *)
| EvDestroySync (sync : Z)                (* eglDestroySyncKHR *)
| EvLockFrontBuffer (bo : Z)              (* gbm_surface_lock_front_buffer, its result *)
| EvFbGetFromBo (bo : Z) (fb_id : option Z) (* drm_fb_get_from_bo, its result *)
| EvClientWaitSync (sync : Z) (retries : nat) (* the eglClientWaitSyncKHR loop *)
| EvCreatePropertyBlob (ret blob_id : Z)  (* drmModeCreatePropertyBlob *)
| EvAtomicCommit (req : drmModeAtomicReq) (flags ret : Z) (* drmModeAtomicCommit *)
| EvClose (fd : Z)                        (* close *)
| EvReleaseBuffer (bo : Z).               (* gbm_surface_release_buffer *)

(** The answers of the outside world, one per frame of the loop.  A never
    signalled fence (the wait loop spinning for ever) is not represented:
    [eglClientWaitSyncKHR_retries] is finite. *)
Record World := mkWorld {
  eglCreateSyncKHR : nat -> Z -> Z;            (* frame, native fence fd -> sync *)
  eglDupNativeFenceFDANDROID : nat -> Z;
  eglClientWaitSyncKHR_retries : nat -> nat;
  gbm_surface_lock_front_buffer : nat -> Z;    (* NULL when it fails *)
  drm_fb_get_from_bo : nat -> option Z;        (* fb->fb_id, None for NULL *)
  drmModeCreatePropertyBlob : nat -> Z * Z;    (* return value, blob id *)
  drmModeAtomicCommit : nat -> drmModeAtomicReq -> Z -> Z;
  kms_out_fence : nat -> Z   (* the fd the kernel stores through OUT_FENCE_PTR *)
}.

(** [struct egl]: for each of the five entry points [atomic_run] needs, the
    value of [egl_check(egl, name)] (a macro of common.h: nonzero when the
    function pointer is missing). *)
Record egl := mkEgl {
  check_eglDupNativeFenceFDANDROID : Z;
  check_eglCreateSyncKHR : Z;
  check_eglDestroySyncKHR : Z;
  check_eglWaitSyncKHR : Z;
  check_eglClientWaitSyncKHR : Z
}.

(** ** A monad for the C control flow

    A computation reads and writes the [struct drm], appends to the trace,
    and ends with a value, with a [return] of the enclosing C function, or
    with a failed [assert]. *)

Inductive res (A : Type) :=
| Val (a : A)
| Ret (z : Z)
| Abort.
Arguments Val {A} a.
Arguments Ret {A} z.
Arguments Abort {A}.

Definition M (A : Type) : Type := drm -> res A * drm * list event.

Definition ret {A} (a : A) : M A := fun d => (Val a, d, []).

Definition bind {A B} (m : M A) (f : A -> M B) : M B := fun d =>
  match m d with
  | (Val a, d1, t1) =>
      match f a d1 with (r, d2, t2) => (r, d2, t1 ++ t2) end
  | (Ret z, d1, t1) => (Ret z, d1, t1)
  | (Abort, d1, t1) => (Abort, d1, t1)
  end.

Notation "x <- c1 ;; c2" := (bind c1 (fun x => c2))
  (at level 61, c1 at next level, right associativity).
Notation "c1 ;; c2" := (bind c1 (fun _ => c2))
  (at level 61, right associativity).

Definition return_ {A} (z : Z) : M A := fun d => (Ret z, d, []).
Definition assert (b : bool) : M unit :=
  fun d => if b then (Val tt, d, []) else (Abort, d, []).
Definition emit (e : event) : M unit := fun d => (Val tt, d, [e]).
Definition get : M drm := fun d => (Val d, d, []).
Definition modify (f : drm -> drm) : M unit := fun d => (Val tt, f d, []).

(** A call of a C function returning [int]: its [return] is the value of the
    call. *)
Definition call (body : M Z) : M Z := fun d =>
  match body d with
  | (Ret z, d1, t) => (Val z, d1, t)
  | other => other
  end.

Definition result {A} (x : res A * drm * list event) : res A := fst (fst x).
Definition final {A} (x : res A * drm * list event) : drm := snd (fst x).
Definition trace {A} (x : res A * drm * list event) : list event := snd x.

(** ** drm_atomic_commit

    The request is a local of the function: [drmModeAtomicAlloc] and
    [drmModeAtomicFree] leave no trace.  The [printf] diagnostics are not
    represented. *)

(** [drmModeCreatePropertyBlob]. *)
Definition create_property_blob (w : World) (k : nat) : M (Z * Z) :=
  let rb := drmModeCreatePropertyBlob w k in
  emit (EvCreatePropertyBlob (fst rb) (snd rb)) ;; ret rb.

(** The block under [if (flags & DRM_MODE_ATOMIC_ALLOW_MODESET)]. *)
Definition modeset_properties (w : World) (k : nat) (d : drm)
    (req : drmModeAtomicReq) : M drmModeAtomicReq :=
  let '(req, r) :=
    add_connector_property d req (connector_id d) "CRTC_ID" (crtc_id d) in
  if r <? 0 then return_ (-1) else
  rb <- create_property_blob w k ;;
  if negb (fst rb =? 0) then return_ (-1) else
  let '(req, r) := add_crtc_property d req (crtc_id d) "MODE_ID" (snd rb) in
  if r <? 0 then return_ (-1) else
  let '(req, r) := add_crtc_property d req (crtc_id d) "ACTIVE" 1 in
  if r <? 0 then return_ (-1) else
  ret req.

(** The ten unchecked [add_plane_property] calls. *)
Definition plane_properties (d : drm) (fb_id : Z)
    (req : drmModeAtomicReq) : drmModeAtomicReq :=
  let plane_id := plane_id (drm_plane d) in
  let req := fst (add_plane_property d req plane_id "FB_ID" fb_id) in
  let req := fst (add_plane_property d req plane_id "CRTC_ID" (crtc_id d)) in
  let req := fst (add_plane_property d req plane_id "SRC_X" 0) in
  let req := fst (add_plane_property d req plane_id "SRC_Y" 0) in
  let req := fst (add_plane_property d req plane_id "SRC_W"
                    (to_u64 (shl_int (hdisplay (mode d)) 16))) in
  let req := fst (add_plane_property d req plane_id "SRC_H"
                    (to_u64 (shl_int (vdisplay (mode d)) 16))) in
  let req := fst (add_plane_property d req plane_id "CRTC_X" 0) in
  let req := fst (add_plane_property d req plane_id "CRTC_Y" 0) in
  let req := fst (add_plane_property d req plane_id "CRTC_W" (hdisplay (mode d))) in
  let req := fst (add_plane_property d req plane_id "CRTC_H" (vdisplay (mode d))) in
  req.

(** The block under the first [if (drm->kms_in_fence_fd != -1)].  The second
    component tells whether OUT_FENCE_PTR made it into the request. *)
Definition fence_properties (d : drm)
    (req : drmModeAtomicReq) : drmModeAtomicReq * bool :=
  if negb (kms_in_fence_fd d =? -1) then
    let '(req, r) := add_crtc_property d req (crtc_id d) "OUT_FENCE_PTR"
                       (to_u64 (kms_out_fence_ptr d)) in
    let req := fst (add_plane_property d req (plane_id (drm_plane d))
                      "IN_FENCE_FD" (to_u64 (kms_in_fence_fd d))) in
    (req, 0 <=? r)
  else (req, false).

(** [drmModeAtomicCommit].  When the commit succeeds and the request carries
    OUT_FENCE_PTR, the kernel stores a new fence fd at the address given
    there, which is [&drm->kms_out_fence_fd]. *)
Definition atomic_commit (w : World) (k : nat) (req : drmModeAtomicReq)
    (flags : Z) (out_fence_requested : bool) : M Z :=
  let r := drmModeAtomicCommit w k req flags in
  emit (EvAtomicCommit req flags r) ;;
  (if (r =? 0) && out_fence_requested
   then modify (set_kms_out_fence_fd (kms_out_fence w k)) else ret tt) ;;
  ret r.

Definition drm_atomic_commit (w : World) (k : nat) (fb_id flags : Z) : M Z :=
  call (
    d <- get ;;
    req <- (if negb (Z.land flags DRM_MODE_ATOMIC_ALLOW_MODESET =? 0)
            then modeset_properties w k d drmModeAtomicAlloc
            else ret drmModeAtomicAlloc) ;;
    let req := plane_properties d fb_id req in
    let '(req, out_fence_requested) := fence_properties d req in
    r <- atomic_commit w k req flags out_fence_requested ;;
    if negb (r =? 0) then return_ r else
    (if negb (kms_in_fence_fd d =? -1)
     then emit (EvClose (kms_in_fence_fd d)) ;; modify (set_kms_in_fence_fd (-1))
     else ret tt) ;;
    return_ r).

(** ** create_fence and atomic_run *)

Definition create_fence (w : World) (k : nat) (fd : Z) : M Z :=
  let fence := eglCreateSyncKHR w k fd in
  emit (EvCreateSync fd fence) ;;
  assert (negb (fence =? EGL_NO_SYNC_KHR)) ;;
  ret fence.

(** The local variables of [atomic_run] that live across iterations. *)
Record locals := mkLocals {
  bo : Z;                          (* struct gbm_bo *, NULL at first *)
  i : Z;                           (* uint32_t *)
  flags : Z                        (* uint32_t *)
}.

(** The part of the loop body before [egl->draw]. *)
Definition import_kms_fence (w : World) (k : nat) : M Z :=
  d <- get ;;
  if negb (kms_out_fence_fd d =? -1) then
    kms_fence <- create_fence w k (kms_out_fence_fd d) ;;
    assert (negb (kms_fence =? EGL_NO_SYNC_KHR)) ;;
    modify (set_kms_out_fence_fd (-1)) ;;
    emit (EvWaitSync kms_fence) ;;
    ret kms_fence
  else ret NULL.

(** The loop body from [egl->draw] to the end. *)
Definition render_and_flip (w : World) (k : nat) (l : locals)
    (kms_fence : Z) : M locals :=
  emit (EvDraw (i l)) ;;
  let i' := to_u32 (i l + 1) in
  gpu_fence <- create_fence w k EGL_NO_NATIVE_FENCE_FD_ANDROID ;;
  assert (negb (gpu_fence =? EGL_NO_SYNC_KHR)) ;;
  emit EvSwapBuffers ;;
  let in_fd := eglDupNativeFenceFDANDROID w k in
  emit (EvDupNativeFenceFD gpu_fence in_fd) ;;
  modify (set_kms_in_fence_fd in_fd) ;;
  emit (EvDestroySync gpu_fence) ;;
  assert (negb (in_fd =? -1)) ;;
  let next_bo := gbm_surface_lock_front_buffer w k in
  emit (EvLockFrontBuffer next_bo) ;;
  if next_bo =? NULL then return_ (-1) else
  let fb := drm_fb_get_from_bo w k in
  emit (EvFbGetFromBo next_bo fb) ;;
  match fb with
  | None => return_ (-1)
  | Some fb_id =>
      (if negb (kms_fence =? EGL_NO_SYNC_KHR) then
         emit (EvClientWaitSync kms_fence (eglClientWaitSyncKHR_retries w k)) ;;
         emit (EvDestroySync kms_fence)
       else ret tt) ;;
      r <- drm_atomic_commit w k fb_id (flags l) ;;
      if negb (r =? 0) then return_ (-1) else
      (if negb (bo l =? NULL) then emit (EvReleaseBuffer (bo l)) else ret tt) ;;
      ret (mkLocals next_bo i'
             (Z.land (flags l)
                (to_u32 (Z.lnot DRM_MODE_ATOMIC_ALLOW_MODESET))))
  end.

(** One pass through the body of [while (1)]; [k] counts the passes. *)
Definition atomic_run_frame (w : World) (k : nat) (l : locals) : M locals :=
  kms_fence <- import_kms_fence w k ;;
  render_and_flip w k l kms_fence.

(** [n] passes through the loop, the first one being pass [k]. *)
Fixpoint atomic_run_loop (w : World) (n k : nat) (l : locals) : M locals :=
  match n with
  | O => ret l
  | S n' => l' <- atomic_run_frame w k l ;; atomic_run_loop w n' (S k) l'
  end.

Definition atomic_run_locals : locals :=
  mkLocals NULL 0
    (Z.lor DRM_MODE_ATOMIC_NONBLOCK DRM_MODE_ATOMIC_ALLOW_MODESET).

(** [atomic_run], observed for [n] frames: [Val] is the loop still running
    after [n] frames, [Ret] a [return] of [atomic_run], [Abort] a failed
    [assert]. *)
Definition atomic_run (w : World) (e : egl) (n : nat) : M locals :=
  if negb (check_eglDupNativeFenceFDANDROID e =? 0)
     || negb (check_eglCreateSyncKHR e =? 0)
     || negb (check_eglDestroySyncKHR e =? 0)
     || negb (check_eglWaitSyncKHR e =? 0)
     || negb (check_eglClientWaitSyncKHR e =? 0)
  then return_ (-1)
  else atomic_run_loop w n 0%nat atomic_run_locals.

(** [init_drm_atomic], from the point where the plane, the crtc and the
    connector and their property tables have been read from the device (the
    argument): it sets [kms_out_fence_fd] to -1. *)
Definition init_drm_atomic (d : drm) : drm := set_kms_out_fence_fd (-1) d.

(** ** Observations on traces *)

Definition is_commit (e : event) : bool :=
  match e with EvAtomicCommit _ _ _ => true | _ => false end.

Definition is_release (e : event) : bool :=
  match e with EvReleaseBuffer _ => true | _ => false end.

Definition is_client_wait (e : event) : bool :=
  match e with EvClientWaitSync _ _ => true | _ => false end.

Definition is_draw (e : event) : bool :=
  match e with EvDraw _ => true | _ => false end.

Definition is_close (e : event) : bool :=
  match e with EvClose _ => true | _ => false end.

Definition is_blob (e : event) : bool :=
  match e with EvCreatePropertyBlob _ _ => true | _ => false end.

(** The flags of the submitted transactions, in order of submission. *)
Fixpoint commit_flags (t : list event) : list Z :=
  match t with
  | [] => []
  | EvAtomicCommit _ fl _ :: t' => fl :: commit_flags t'
  | _ :: t' => commit_flags t'
  end.

(** The requests of the submitted transactions, in order of submission. *)
Fixpoint commit_reqs (t : list event) : list drmModeAtomicReq :=
  match t with
  | [] => []
  | EvAtomicCommit req _ _ :: t' => req :: commit_reqs t'
  | _ :: t' => commit_reqs t'
  end.

Definition allows_modeset (fl : Z) : bool :=
  negb (Z.land fl DRM_MODE_ATOMIC_ALLOW_MODESET =? 0).



(** The position of the first event satisfying [p]. *)
Fixpoint index_of (p : event -> bool) (t : list event) : option nat :=
  match t with
  | [] => None
  | e :: t' =>
      if p e then Some O
      else match index_of p t' with
           | Some n => Some (S n)
           | None => None
           end
  end.

(** ** A sample session: 1920x1080, every property present *)

Definition sample_plane : plane :=
  mkPlane 31
    [ mkProp "type" 7; mkProp "FB_ID" 16; mkProp "IN_FENCE_FD" 17;
      mkProp "CRTC_ID" 19; mkProp "CRTC_X" 8; mkProp "CRTC_Y" 9;
      mkProp "CRTC_W" 10; mkProp "CRTC_H" 11; mkProp "SRC_X" 12;
      mkProp "SRC_Y" 13; mkProp "SRC_W" 14; mkProp "SRC_H" 15 ].

Definition sample_crtc : crtc :=
  mkCrtc [ mkProp "ACTIVE" 21; mkProp "MODE_ID" 22; mkProp "OUT_FENCE_PTR" 23 ].

Definition sample_connector : connector :=
  mkConnector [ mkProp "EDID" 1; mkProp "DPMS" 2; mkProp "CRTC_ID" 20 ].

(** The [struct drm] as [calloc] and the device discovery leave it. *)
Definition sample_drm : drm :=
  mkDrm 3 sample_plane sample_crtc sample_connector 41 51
        (mkMode 1920 1080) 0 0 4096.

Definition sample_egl : egl := mkEgl 0 0 0 0 0.

(** A world in which every call succeeds; two buffers alternate. *)
Definition sample_world : World :=
  mkWorld
    (fun k native_fd =>
       200 + 2 * Z.of_nat k + (if native_fd =? -1 then 0 else 1))
    (fun k => 10 + Z.of_nat k)
    (fun _ => O)
    (fun k => 1000 + Z.of_nat (k mod 2))
    (fun k => Some (50 + Z.of_nat (k mod 2)))
    (fun _ => (0, 77))
    (fun _ _ _ => 0)
    (fun k => 20 + Z.of_nat k).

(** The same world, except that [drmModeAtomicCommit] fails (-EBUSY) in
    frame [bad]. *)
Definition commit_fails_at (bad : nat) : World :=
  mkWorld
    (eglCreateSyncKHR sample_world)
    (eglDupNativeFenceFDANDROID sample_world)
    (eglClientWaitSyncKHR_retries sample_world)
    (gbm_surface_lock_front_buffer sample_world)
    (drm_fb_get_from_bo sample_world)
    (drmModeCreatePropertyBlob sample_world)
    (fun k _ _ => if Nat.eqb k bad then -16 else 0)
    (kms_out_fence sample_world).

(** The same world, except that [gbm_surface_lock_front_buffer] returns NULL
    in frame [bad]. *)
Definition lock_fails_at (bad : nat) : World :=
  mkWorld
    (eglCreateSyncKHR sample_world)
    (eglDupNativeFenceFDANDROID sample_world)
    (eglClientWaitSyncKHR_retries sample_world)
    (fun k => if Nat.eqb k bad then NULL
              else gbm_surface_lock_front_buffer sample_world k)
    (drm_fb_get_from_bo sample_world)
    (drmModeCreatePropertyBlob sample_world)
    (drmModeAtomicCommit sample_world)
    (kms_out_fence sample_world).

(** A plane whose table lacks FB_ID, and a crtc whose table lacks MODE_ID. *)
Definition plane_without_fb_id : plane :=
  mkPlane 31
    [ mkProp "type" 7; mkProp "IN_FENCE_FD" 17;
      mkProp "CRTC_ID" 19; mkProp "CRTC_X" 8; mkProp "CRTC_Y" 9;
      mkProp "CRTC_W" 10; mkProp "CRTC_H" 11; mkProp "SRC_X" 12;
      mkProp "SRC_Y" 13; mkProp "SRC_W" 14; mkProp "SRC_H" 15 ].

Definition crtc_without_mode_id : crtc :=
  mkCrtc [ mkProp "ACTIVE" 21; mkProp "OUT_FENCE_PTR" 23 ].

Definition drm_without_fb_id : drm :=
  mkDrm 3 plane_without_fb_id sample_crtc sample_connector 41 51
        (mkMode 1920 1080) 0 0 4096.

Definition drm_without_mode_id : drm :=
  mkDrm 3 sample_plane crtc_without_mode_id sample_connector 41 51
        (mkMode 1920 1080) 0 0 4096.

(** ** The events of one frame, by stage *)

(** Rendering and export of the GPU fence: [egl->draw] up to
    [eglDestroySyncKHR(gpu_fence)]. *)
Definition render_events (w : World) (k : nat) (l : locals) : list event :=
  let gpu_fence := eglCreateSyncKHR w k EGL_NO_NATIVE_FENCE_FD_ANDROID in
  [ EvDraw (i l);
    EvCreateSync EGL_NO_NATIVE_FENCE_FD_ANDROID gpu_fence;
    EvSwapBuffers;
    EvDupNativeFenceFD gpu_fence (eglDupNativeFenceFDANDROID w k);
    EvDestroySync gpu_fence ].

(** The block under [if (kms_fence)]. *)
Definition wait_events (w : World) (k : nat) (kms_fence : Z) : list event :=
  if kms_fence =? EGL_NO_SYNC_KHR then []
  else [ EvClientWaitSync kms_fence (eglClientWaitSyncKHR_retries w k);
         EvDestroySync kms_fence ].

(** The statement under [if (bo)]. *)
Definition release_events (l : locals) : list event :=
  if bo l =? NULL then [] else [EvReleaseBuffer (bo l)].

(** The locals at the end of a pass that went through. *)
Definition next_locals (w : World) (k : nat) (l : locals) : locals :=
  mkLocals (gbm_surface_lock_front_buffer w k) (to_u32 (i l + 1))
    (Z.land (flags l) (to_u32 (Z.lnot DRM_MODE_ATOMIC_ALLOW_MODESET))).

(** What the loop never writes: everything but the two fence fields. *)
Definition same_device (d d' : drm) : Prop :=
  set_kms_in_fence_fd 0 (set_kms_out_fence_fd 0 d') =
  set_kms_in_fence_fd 0 (set_kms_out_fence_fd 0 d).

(** The identifier a plane property name resolves to. *)
Definition plane_prop (d : drm) (nm : string) : Z :=
  find_prop_id nm (-1) (plane_props_info (drm_plane d)).




(** The flags of the first [n] transactions of a loop entered with [fl]. *)
Definition expected_flags (fl : Z) (n : nat) : list Z :=
  match n with
  | O => []
  | S m => fl :: repeat (Z.land fl (to_u32 (Z.lnot DRM_MODE_ATOMIC_ALLOW_MODESET))) m
  end.

(** ** The outcome of drm_atomic_commit *)

(** The request submitted when the modeset block has left [base]. *)
Definition request (d : drm) (fb_id : Z) (base : drmModeAtomicReq) : drmModeAtomicReq :=
  fst (fence_properties d (plane_properties d fb_id base)).

Definition out_fence_requested (d : drm) (fb_id : Z) (base : drmModeAtomicReq) : bool :=
  snd (fence_properties d (plane_properties d fb_id base)).

(** The [drmModeCreatePropertyBlob] call: made when the modeset is allowed and
    the connector's CRTC_ID went into the request. *)
Definition blob_events (w : World) (k : nat) (d : drm) (fl : Z) : list event :=
  if allows_modeset fl
     && negb (snd (add_connector_property d drmModeAtomicAlloc (connector_id d)
                     "CRTC_ID" (crtc_id d)) <? 0)
  then [EvCreatePropertyBlob (fst (drmModeCreatePropertyBlob w k))
                             (snd (drmModeCreatePropertyBlob w k))]
  else [].

(** The block under the second [if (drm->kms_in_fence_fd != -1)]. *)
Definition close_events (d : drm) : list event :=
  if kms_in_fence_fd d =? -1 then [] else [EvClose (kms_in_fence_fd d)].

(** The [struct drm] after an accepted commit. *)
Definition accepted_state (w : World) (k : nat) (d : drm) (out_requested : bool) : drm :=
  let d1 := if out_requested
            then set_kms_out_fence_fd (kms_out_fence w k) d else d in
  if kms_in_fence_fd d =? -1 then d1 else set_kms_in_fence_fd (-1) d1.

(** A call of [drm_atomic_commit] ends in one of three ways: abandoned before
    anything was submitted, submitted and rejected, submitted and accepted. *)
Inductive commit_outcome (w : World) (k : nat) (fb_id fl : Z) (d : drm) :
    res Z * drm * list event -> Prop :=
| commit_abandoned :
    allows_modeset fl = true ->
    commit_outcome w k fb_id fl d (Val (-1), d, blob_events w k d fl)
| commit_rejected base r :
    (allows_modeset fl = false -> base = []) ->
    r = drmModeAtomicCommit w k (request d fb_id base) fl ->
    r <> 0 ->
    commit_outcome w k fb_id fl d
      (Val r, d,
       blob_events w k d fl ++ [EvAtomicCommit (request d fb_id base) fl r])
| commit_accepted base :
    (allows_modeset fl = false -> base = []) ->
    drmModeAtomicCommit w k (request d fb_id base) fl = 0 ->
    commit_outcome w k fb_id fl d
      (Val 0, accepted_state w k d (out_fence_requested d fb_id base),
       blob_events w k d fl
         ++ EvAtomicCommit (request d fb_id base) fl 0 :: close_events d).

(** ** The paths through one frame *)

(** The sync object imported from the pending out-fence, NULL when none is
    pending. *)
Definition imported_fence (w : World) (k : nat) (d : drm) : Z :=
  if kms_out_fence_fd d =? -1 then NULL
  else eglCreateSyncKHR w k (kms_out_fence_fd d).

(** The events before [egl->draw] when the import went through. *)
Definition import_events (w : World) (k : nat) (d : drm) : list event :=
  if kms_out_fence_fd d =? -1 then []
  else [ EvCreateSync (kms_out_fence_fd d) (imported_fence w k d);
         EvWaitSync (imported_fence w k d) ].

(** The [struct drm] when [egl->draw] is called. *)
Definition drm_at_draw (d : drm) : drm :=
  if kms_out_fence_fd d =? -1 then d else set_kms_out_fence_fd (-1) d.

(** The [struct drm] when [drm_atomic_commit] is called. *)
Definition drm_at_commit (w : World) (k : nat) (d : drm) : drm :=
  set_kms_in_fence_fd (eglDupNativeFenceFDANDROID w k) (drm_at_draw d).

(** The events from [egl->draw] to the call of [drm_atomic_commit]. *)
Definition flip_events (w : World) (k : nat) (l : locals) (d : drm)
    (fb : option Z) : list event :=
  import_events w k d ++ render_events w k l
    ++ [ EvLockFrontBuffer (gbm_surface_lock_front_buffer w k);
         EvFbGetFromBo (gbm_surface_lock_front_buffer w k) fb ]
    ++ wait_events w k (imported_fence w k d).

(** The import did not hit the [assert]. *)
Definition import_ok (w : World) (k : nat) (d : drm) : Prop :=
  kms_out_fence_fd d = -1
  \/ eglCreateSyncKHR w k (kms_out_fence_fd d) <> EGL_NO_SYNC_KHR.

(** Every way one pass through the loop body can go. *)
Inductive frame_outcome (w : World) (k : nat) (l : locals) (d : drm) :
    res locals * drm * list event -> Prop :=
| frame_import_abort :
    kms_out_fence_fd d <> -1 ->
    eglCreateSyncKHR w k (kms_out_fence_fd d) = EGL_NO_SYNC_KHR ->
    frame_outcome w k l d
      (Abort, d, [EvCreateSync (kms_out_fence_fd d) EGL_NO_SYNC_KHR])
| frame_gpu_fence_abort :
    import_ok w k d ->
    eglCreateSyncKHR w k EGL_NO_NATIVE_FENCE_FD_ANDROID = EGL_NO_SYNC_KHR ->
    frame_outcome w k l d
      (Abort, drm_at_draw d,
       import_events w k d
         ++ [EvDraw (i l);
             EvCreateSync EGL_NO_NATIVE_FENCE_FD_ANDROID EGL_NO_SYNC_KHR])
| frame_export_abort :
    import_ok w k d ->
    eglCreateSyncKHR w k EGL_NO_NATIVE_FENCE_FD_ANDROID <> EGL_NO_SYNC_KHR ->
    eglDupNativeFenceFDANDROID w k = -1 ->
    frame_outcome w k l d
      (Abort, drm_at_commit w k d, import_events w k d ++ render_events w k l)
| frame_lock_failed :
    import_ok w k d ->
    eglCreateSyncKHR w k EGL_NO_NATIVE_FENCE_FD_ANDROID <> EGL_NO_SYNC_KHR ->
    eglDupNativeFenceFDANDROID w k <> -1 ->
    gbm_surface_lock_front_buffer w k = NULL ->
    frame_outcome w k l d
      (Ret (-1), drm_at_commit w k d,
       import_events w k d ++ render_events w k l ++ [EvLockFrontBuffer NULL])
| frame_fb_failed :
    import_ok w k d ->
    eglCreateSyncKHR w k EGL_NO_NATIVE_FENCE_FD_ANDROID <> EGL_NO_SYNC_KHR ->
    eglDupNativeFenceFDANDROID w k <> -1 ->
    gbm_surface_lock_front_buffer w k <> NULL ->
    drm_fb_get_from_bo w k = None ->
    frame_outcome w k l d
      (Ret (-1), drm_at_commit w k d,
       import_events w k d ++ render_events w k l
         ++ [ EvLockFrontBuffer (gbm_surface_lock_front_buffer w k);
              EvFbGetFromBo (gbm_surface_lock_front_buffer w k) None ])
| frame_commit_failed fb_id r d2 tc :
    import_ok w k d ->
    eglCreateSyncKHR w k EGL_NO_NATIVE_FENCE_FD_ANDROID <> EGL_NO_SYNC_KHR ->
    eglDupNativeFenceFDANDROID w k <> -1 ->
    gbm_surface_lock_front_buffer w k <> NULL ->
    drm_fb_get_from_bo w k = Some fb_id ->
    commit_outcome w k fb_id (flags l) (drm_at_commit w k d) (Val r, d2, tc) ->
    drm_atomic_commit w k fb_id (flags l) (drm_at_commit w k d) = (Val r, d2, tc) ->
    r <> 0 ->
    frame_outcome w k l d
      (Ret (-1), d2, flip_events w k l d (Some fb_id) ++ tc)
| frame_passed fb_id d2 tc :
    import_ok w k d ->
    eglCreateSyncKHR w k EGL_NO_NATIVE_FENCE_FD_ANDROID <> EGL_NO_SYNC_KHR ->
    eglDupNativeFenceFDANDROID w k <> -1 ->
    gbm_surface_lock_front_buffer w k <> NULL ->
    drm_fb_get_from_bo w k = Some fb_id ->
    commit_outcome w k fb_id (flags l) (drm_at_commit w k d) (Val 0, d2, tc) ->
    drm_atomic_commit w k fb_id (flags l) (drm_at_commit w k d) = (Val 0, d2, tc) ->
    frame_outcome w k l d
      (Val (next_locals w k l), d2,
       flip_events w k l d (Some fb_id) ++ tc ++ release_events l).

(** ** Device discovery: get_plane_id and init_drm_atomic *)

(** The result of code that dereferences pointers it has not tested:
    [Fault] is the dereference of a NULL pointer. *)
Inductive outcome (A : Type) :=
| Done (a : A)
| Fault.
Arguments Done {A} a.
Arguments Fault {A}.

Definition DRM_PLANE_TYPE_PRIMARY : Z := 1.
Definition DRM_MODE_OBJECT_CRTC : Z := 3435973836.       (* 0xcccccccc *)
Definition DRM_MODE_OBJECT_CONNECTOR : Z := 3233857728.  (* 0xc0c0c0c0 *)
Definition DRM_MODE_OBJECT_PLANE : Z := 4008636142.      (* 0xeeeeeeee *)

(** [drmModePlane]: the two fields the program reads. *)
Record drmModePlane := mkModePlane {
  mp_plane_id : Z;                 (* uint32_t *)
  possible_crtcs : Z               (* uint32_t *)
}.

(** The answers of libdrm during discovery, taken as functions of the
    arguments (the device does not change while [init_drm_atomic] runs).
    [None] and [false] stand for a NULL result.  An object's properties are
    the pairs ([props[j]], [prop_values[j]]). *)
Record device := mkDevice {
  drmSetClientCap : Z;
  drmModeGetPlaneResources : option (list Z);
  drmModeGetPlane : Z -> option drmModePlane;
  drmModeGetCrtc : Z -> bool;
  drmModeGetConnector : Z -> bool;
  drmModeObjectGetProperties : Z -> Z -> option (list (Z * Z));
  drmModeGetProperty : Z -> option drmModePropertyRes
}.

(** The inner loop of [get_plane_id], over the properties of one plane.
    [p->name] is read without a test of [p]. *)
Fixpoint scan_plane_type (dev : device) (props : list (Z * Z))
    (found_primary : bool) : outcome bool :=
  match props with
  | [] => Done found_primary
  | (prop, prop_value) :: rest =>
      match drmModeGetProperty dev prop with
      | None => Fault
      | Some p =>
          scan_plane_type dev rest
            (if String.eqb (name p) "type"
                && (prop_value =? DRM_PLANE_TYPE_PRIMARY)
             then true else found_primary)
      end
  end.

(** [plane->possible_crtcs & (1 << drm->crtc_index)]. *)
Definition serves_crtc (plane : drmModePlane) (crtc_index : Z) : bool :=
  negb (Z.land (possible_crtcs plane) (to_u32 (shl_int 1 crtc_index)) =? 0).

(** The outer loop of [get_plane_id], from plane [i] on.
    [props->count_props] is read without a test of [props]. *)
Fixpoint scan_planes (dev : device) (crtc_index : Z) (planes : list Z)
    (ret : Z) (found_primary : bool) : outcome Z :=
  match planes with
  | [] => Done ret
  | id :: rest =>
      if found_primary then Done ret else
      match drmModeGetPlane dev id with
      | None => scan_planes dev crtc_index rest ret found_primary
      | Some plane =>
          if serves_crtc plane crtc_index then
            match drmModeObjectGetProperties dev id DRM_MODE_OBJECT_PLANE with
            | None => Fault
            | Some props =>
                match scan_plane_type dev props found_primary with
                | Fault => Fault
                | Done found => scan_planes dev crtc_index rest (to_int id) found
                end
            end
          else scan_planes dev crtc_index rest ret found_primary
      end
  end.

Definition get_plane_id (dev : device) (crtc_index : Z) : outcome Z :=
  match drmModeGetPlaneResources dev with
  | None => Done (-1)
  | Some planes => scan_planes dev crtc_index planes (- EINVAL) false
  end.

(** What [get_plane_id] makes of one plane: it passes over it, takes it
    (primary or not), or faults on it. *)
Inductive plane_class := Passed | Taken (primary : bool) | Faulty.

Definition classify_plane (dev : device) (crtc_index : Z) (id : Z) : plane_class :=
  match drmModeGetPlane dev id with
  | None => Passed
  | Some plane =>
      if serves_crtc plane crtc_index then
        match drmModeObjectGetProperties dev id DRM_MODE_OBJECT_PLANE with
        | None => Faulty
        | Some props =>
            match scan_plane_type dev props false with
            | Fault => Faulty
            | Done primary => Taken primary
            end
        end
      else Passed
  end.

(** What [init_drm] (drm-common.c, not among the sources) hands over: its
    return value and the fields it has filled in the zeroed [struct drm]. *)
Record init_drm_result := mkInitDrm {
  init_drm_ret : Z;
  init_crtc_id : Z;                (* uint32_t *)
  init_connector_id : Z;           (* uint32_t *)
  init_crtc_index : Z;             (* int *)
  init_mode : drmModeModeInfo
}.

(** What [init_drm_atomic] reads from the device: the plane and the three
    property tables, whose entries are the results of [drmModeGetProperty],
    NULL ones included. *)
Record discovery := mkDiscovery {
  found_plane : drmModePlane;
  found_plane_props : list (option drmModePropertyRes);
  found_crtc_props : list (option drmModePropertyRes);
  found_connector_props : list (option drmModePropertyRes)
}.

(** The loop of the macro [get_properties]. *)
Definition get_property_infos (dev : device) (props : list (Z * Z)) :
    list (option drmModePropertyRes) :=
  map (fun pv => drmModeGetProperty dev (fst pv)) props.

(** [init_drm_atomic] up to the last [get_properties]: [Done None] is
    [return NULL]. *)
Definition init_drm_atomic_discovery (dev : device) (ini : init_drm_result) :
    outcome (option discovery) :=
  if negb (init_drm_ret ini =? 0) then Done None else
  if negb (drmSetClientCap dev =? 0) then Done None else
  match get_plane_id dev (init_crtc_index ini) with
  | Fault => Fault
  | Done ret =>
      if ret =? 0 then Done None else
      let plane_id := to_u32 ret in
      match drmModeGetPlane dev plane_id with
      | None => Done None
      | Some plane =>
          if negb (drmModeGetCrtc dev (init_crtc_id ini)) then Done None else
          if negb (drmModeGetConnector dev (init_connector_id ini)) then Done None else
          match drmModeObjectGetProperties dev plane_id DRM_MODE_OBJECT_PLANE with
          | None => Done None
          | Some pp =>
              match drmModeObjectGetProperties dev (init_crtc_id ini)
                      DRM_MODE_OBJECT_CRTC with
              | None => Done None
              | Some cp =>
                  match drmModeObjectGetProperties dev (init_connector_id ini)
                          DRM_MODE_OBJECT_CONNECTOR with
                  | None => Done None
                  | Some np =>
                      Done (Some (mkDiscovery plane
                                    (get_property_infos dev pp)
                                    (get_property_infos dev cp)
                                    (get_property_infos dev np)))
                  end
              end
          end
      end
  end.

(** A table without NULL entries, as the [add_*_property] functions need
    it ([strcmp] reads [props_info[i]->name]). *)
Fixpoint complete_table (t : list (option drmModePropertyRes)) :
    option (list drmModePropertyRes) :=
  match t with
  | [] => Some []
  | None :: _ => None
  | Some p :: rest =>
      match complete_table rest with
      | Some rest' => Some (p :: rest')
      | None => None
      end
  end.

(** The [struct drm] just before [drm->kms_out_fence_fd = -1]: [calloc] has
    zeroed [fd] and the two fence fields.  [slot] is the address of
    [kms_out_fence_fd]. *)
Definition discovered_drm (ini : init_drm_result) (f : discovery) (slot : Z) :
    option drm :=
  match complete_table (found_plane_props f),
        complete_table (found_crtc_props f),
        complete_table (found_connector_props f) with
  | Some pt, Some ct, Some nt =>
      Some (mkDrm 0 (mkPlane (mp_plane_id (found_plane f)) pt) (mkCrtc ct)
              (mkConnector nt) (init_crtc_id ini) (init_connector_id ini)
              (init_mode ini) 0 0 slot)
  | _, _, _ => None
  end.

(** ** kmscube.c: the option loop of main, and the choice of the cube *)

(** [enum mode] of common.h. *)
Inductive cube_mode := SMOOTH | RGBA | NV12_2IMG | NV12_1IMG | VIDEO.

Definition DRM_FORMAT_MOD_INVALID : Z := 72057594037927935. (* 0x00ffffffffffffff *)

(** The file-scope variables that the options set, and [lease] of [main]. *)
Record settings := mkSettings {
  device_path : string;
  video : option string;           (* NULL at first *)
  mode_setting : cube_mode;
  modifier : Z;                    (* uint64_t *)
  atomic : Z;
  lease : Z
}.

Definition default_settings : settings :=
  mkSettings "/dev/dri/card0" None SMOOTH DRM_FORMAT_MOD_INVALID 0 0.

(** The [-M] case: the mode a name stands for, if any. *)
Definition mode_of_name (optarg : string) : option cube_mode :=
  if String.eqb optarg "smooth" then Some SMOOTH
  else if String.eqb optarg "rgba" then Some RGBA
  else if String.eqb optarg "nv12-2img" then Some NV12_2IMG
  else if String.eqb optarg "nv12-1img" then Some NV12_1IMG
  else None.

(** One turn of the [while] loop of [main] on what [getopt_long_only]
    returned, the option character and [optarg]: the settings afterwards, or
    [inr (-1)] for [usage(); return -1].  [strtoull] is the library
    function, at base 0. *)
Definition handle_option (strtoull : string -> Z) (s : settings)
    (opt : ascii) (optarg : string) : settings + Z :=
  if Ascii.eqb opt "A" then
    inl (mkSettings (device_path s) (video s) (mode_setting s) (modifier s) 1 (lease s))
  else if Ascii.eqb opt "D" then
    inl (mkSettings optarg (video s) (mode_setting s) (modifier s) (atomic s) (lease s))
  else if Ascii.eqb opt "M" then
    match mode_of_name optarg with
    | Some m =>
        inl (mkSettings (device_path s) (video s) m (modifier s) (atomic s) (lease s))
    | None => inr (-1)
    end
  else if Ascii.eqb opt "m" then
    inl (mkSettings (device_path s) (video s) (mode_setting s)
           (to_u64 (strtoull optarg)) (atomic s) (lease s))
  else if Ascii.eqb opt "V" then
    inl (mkSettings (device_path s) (Some optarg) VIDEO (modifier s) (atomic s) (lease s))
  else if Ascii.eqb opt "l" then
    inl (mkSettings (device_path s) (video s) (mode_setting s) (modifier s) (atomic s) 1)
  else inr (-1).

(** The [while] loop of [main] over the successive results of
    [getopt_long_only]. *)
Fixpoint parse_options (strtoull : string -> Z) (opts : list (ascii * string))
    (s : settings) : settings + Z :=
  match opts with
  | [] => inl s
  | (opt, optarg) :: rest =>
      match handle_option strtoull s opt optarg with
      | inl s' => parse_options strtoull rest s'
      | inr r => inr r
      end
  end.

(** Which of the three [init_cube_*] functions [run] calls, and with what:
    the [if] chain on [mode] in [run]. *)
Inductive cube_init := CubeSmooth | CubeVideo (file : option string) | CubeTex (m : cube_mode).

Definition cube_init_of (s : settings) : cube_init :=
  match mode_setting s with
  | SMOOTH => CubeSmooth
  | VIDEO => CubeVideo (video s)
  | m => CubeTex m
  end.

(** The options the loop of [main] accepts: the six letters, [-M] with one
    of the four mode names. *)
Definition valid_option (oa : ascii * string) : bool :=
  let (opt, optarg) := oa in
  Ascii.eqb opt "A" || Ascii.eqb opt "D" || Ascii.eqb opt "m"
  || Ascii.eqb opt "V" || Ascii.eqb opt "l"
  || (Ascii.eqb opt "M"
      && match mode_of_name optarg with Some _ => true | None => false end).

(** The options that set [mode]: [-M] and [-V]. *)
Definition sets_mode (oa : ascii * string) : bool :=
  Ascii.eqb (fst oa) "M" || Ascii.eqb (fst oa) "V".

(** A sample device: three planes, the second and third serve crtc 0, the
    third is the primary one. *)
Definition sample_device : device :=
  mkDevice 0 (Some [28; 31; 34])
    (fun id => if id =? 28 then Some (mkModePlane 28 2)
               else if id =? 31 then Some (mkModePlane 31 1)
               else if id =? 34 then Some (mkModePlane 34 3)
               else None)
    (fun id => id =? 41)
    (fun id => id =? 51)
    (fun id _ =>
       if id =? 31 then Some [(7, 0); (16, 0); (14, 0)]
       else if id =? 34 then Some [(16, 0); (7, 1)]
       else if id =? 28 then Some [(7, 2)]
       else if id =? 41 then Some [(21, 0); (22, 0)]
       else if id =? 51 then Some [(20, 41)]
       else None)
    (fun prop =>
       if prop =? 7 then Some (mkProp "type" 7)
       else if prop =? 16 then Some (mkProp "FB_ID" 16)
       else if prop =? 14 then Some (mkProp "SRC_W" 14)
       else if prop =? 20 then Some (mkProp "CRTC_ID" 20)
       else if prop =? 21 then Some (mkProp "ACTIVE" 21)
       else if prop =? 22 then Some (mkProp "MODE_ID" 22)
       else None).

(** The same device with no plane for the crtc. *)
Definition device_without_plane : device :=
  mkDevice 0 (Some [28])
    (drmModeGetPlane sample_device)
    (drmModeGetCrtc sample_device)
    (drmModeGetConnector sample_device)
    (drmModeObjectGetProperties sample_device)
    (drmModeGetProperty sample_device).

Definition sample_init : init_drm_result :=
  mkInitDrm 0 41 51 0 (mkMode 1920 1080).

(** A device that does not hand out the properties of its planes. *)
Definition device_hiding_properties : device :=
  mkDevice 0 (Some [28; 31])
    (drmModeGetPlane sample_device)
    (drmModeGetCrtc sample_device)
    (drmModeGetConnector sample_device)
    (fun _ _ => None)
    (drmModeGetProperty sample_device).

(** A device none of whose planes serves the crtc, and which answers
    [drmModeGetPlane] and [drmModeObjectGetProperties] for any number. *)
Definition device_answering_any_id : device :=
  mkDevice 0 (Some [28])
    (fun id => Some (mkModePlane id 2))
    (fun _ => true)
    (fun _ => true)
    (fun _ _ => Some [(7, 0)])
    (drmModeGetProperty sample_device).

(** ** Further observations on the frame loop *)

Definition is_wait_sync (e : event) : bool :=
  match e with EvWaitSync _ => true | _ => false end.

Definition is_create_sync (e : event) : bool :=
  match e with EvCreateSync _ _ => true | _ => false end.

(** Whether a connector, or a crtc, property name resolves to an identifier
    that the library accepts for the object. *)
Definition connector_resolves (d : drm) (nm : string) : bool :=
  (0 <? find_prop_id nm 0 (connector_props_info (drm_connector d)))
  && negb (connector_id d =? 0).

Definition crtc_resolves (d : drm) (nm : string) : bool :=
  (0 <? find_prop_id nm (-1) (crtc_props_info (drm_crtc d)))
  && negb (crtc_id d =? 0).

Definition connector_prop (d : drm) (nm : string) : Z :=
  find_prop_id nm 0 (connector_props_info (drm_connector d)).

Definition crtc_prop (d : drm) (nm : string) : Z :=
  find_prop_id nm (-1) (crtc_props_info (drm_crtc d)).

(** The three entries of the modeset block: the connector linked to the
    crtc, the mode blob, the crtc switched on. *)
Definition modeset_entries (d : drm) (blob_id : Z) : list item :=
  [ mkItem (connector_id d) (connector_prop d "CRTC_ID") (crtc_id d);
    mkItem (crtc_id d) (crtc_prop d "MODE_ID") blob_id;
    mkItem (crtc_id d) (crtc_prop d "ACTIVE") 1 ].

(** A world in which the mode blob cannot be created. *)
Definition blob_fails : World :=
  mkWorld
    (eglCreateSyncKHR sample_world)
    (eglDupNativeFenceFDANDROID sample_world)
    (eglClientWaitSyncKHR_retries sample_world)
    (gbm_surface_lock_front_buffer sample_world)
    (drm_fb_get_from_bo sample_world)
    (fun _ => (-12, 0))
    (drmModeAtomicCommit sample_world)
    (kms_out_fence sample_world).

(** A crtc without OUT_FENCE_PTR. *)
Definition drm_without_out_fence : drm :=
  mkDrm 3 sample_plane (mkCrtc [ mkProp "ACTIVE" 21; mkProp "MODE_ID" 22 ])
        sample_connector 41 51 (mkMode 1920 1080) 0 0 4096.

(** ** Facts about the integer conversions *)

Section CIntFacts.


Lemma to_u32_small z : 0 <= z < 2 ^ 32 -> to_u32 z = z.
Proof. intros H. unfold to_u32. apply Z.mod_small. exact H. Qed.

Lemma to_int_small z : 0 <= z < 2 ^ 31 -> to_int z = z.
Proof.
  intros H. unfold to_int.
  rewrite Z.mod_small by lia.
  destruct (Z.ltb_spec z (2 ^ 31)); lia.
Qed.

Lemma to_int_range z : - 2 ^ 31 <= to_int z < 2 ^ 31.
Proof.
  unfold to_int.
  pose proof (Z.mod_pos_bound z (2 ^ 32) ltac:(lia)) as Hb.
  destruct (Z.ltb_spec (z mod 2 ^ 32) (2 ^ 31)); lia.
Qed.


End CIntFacts.

(** ** Property resolution *)

Section Resolution.

Lemma find_prop_id_absent nm init tbl :
  has_prop nm tbl = false -> find_prop_id nm init tbl = init.
Proof.
  induction tbl as [|p tbl IH]; simpl; intros H; [reflexivity|].
  apply orb_false_iff in H. destruct H as [Hp Ht].
  rewrite Hp. apply IH. exact Ht.
Qed.

Lemma find_prop_id_range nm init tbl :
  - 2 ^ 31 <= init < 2 ^ 31 ->
  - 2 ^ 31 <= find_prop_id nm init tbl < 2 ^ 31.
Proof.
  intros Hi. induction tbl as [|p tbl IH]; simpl; [exact Hi|].
  destruct (String.eqb (name p) nm); [apply to_int_range | exact IH].
Qed.

(** An absent name leaves the connector's [prop_id] at 0, which passes the
    [prop_id < 0] test: the library is asked to add property 0. *)
Lemma add_connector_property_absent d req obj nm v :
  has_prop nm (connector_props_info (drm_connector d)) = false ->
  add_connector_property d req obj nm v = drmModeAtomicAddProperty req obj 0 v.
Proof.
  intros H. unfold add_connector_property.
  rewrite (find_prop_id_absent _ _ _ H). reflexivity.
Qed.

Lemma add_crtc_property_absent d req obj nm v :
  has_prop nm (crtc_props_info (drm_crtc d)) = false ->
  add_crtc_property d req obj nm v = (req, - EINVAL).
Proof.
  intros H. unfold add_crtc_property.
  rewrite (find_prop_id_absent _ _ _ H). reflexivity.
Qed.

Lemma add_plane_property_absent d req obj nm v :
  has_prop nm (plane_props_info (drm_plane d)) = false ->
  add_plane_property d req obj nm v = (req, - EINVAL).
Proof.
  intros H. unfold add_plane_property.
  rewrite (find_prop_id_absent _ _ _ H). reflexivity.
Qed.




Lemma add_plane_property_resolves d req nm v :
  plane_resolves d nm = true ->
  fst (add_plane_property d req (plane_id (drm_plane d)) nm v) =
  req ++ [mkItem (plane_id (drm_plane d))
            (find_prop_id nm (-1) (plane_props_info (drm_plane d))) v].
Proof.
  unfold plane_resolves, add_plane_property. intros H.
  apply andb_true_iff in H. destruct H as [Hp Hid].
  apply Z.ltb_lt in Hp. apply negb_true_iff in Hid.
  pose proof (find_prop_id_range nm (-1) (plane_props_info (drm_plane d))
                ltac:(lia)) as Hr.
  set (p := find_prop_id nm (-1) (plane_props_info (drm_plane d))) in *.
  destruct (Z.ltb_spec p 0); [lia|].
  rewrite to_u32_small by lia.
  unfold drmModeAtomicAddProperty. rewrite Hid.
  destruct (Z.eqb_spec p 0); [lia|]. reflexivity.
Qed.

End Resolution.

(** ** drm_atomic_commit *)

Section Commit.

Variables (w : World) (k : nat).

Lemma modeset_properties_cases d fl :
  allows_modeset fl = true ->
  modeset_properties w k d drmModeAtomicAlloc d = (Ret (-1), d, blob_events w k d fl)
  \/ (exists base,
       modeset_properties w k d drmModeAtomicAlloc d = (Val base, d, blob_events w k d fl)).
Proof.
  intros Hfl. unfold modeset_properties, blob_events. rewrite Hfl.
  destruct (add_connector_property d drmModeAtomicAlloc (connector_id d)
              "CRTC_ID" (crtc_id d)) as [req1 r1].
  cbn [fst snd andb].
  destruct (r1 <? 0); cbn [negb].
  { left. reflexivity. }
  unfold create_property_blob, bind, emit, ret, return_. simpl.
  destruct (fst (drmModeCreatePropertyBlob w k) =? 0); simpl.
  2:{ left. reflexivity. }
  destruct (add_crtc_property d req1 (crtc_id d) "MODE_ID"
              (snd (drmModeCreatePropertyBlob w k))) as [req2 r2].
  destruct (r2 <? 0); simpl.
  { left. reflexivity. }
  destruct (add_crtc_property d req2 (crtc_id d) "ACTIVE" 1) as [req3 r3].
  destruct (r3 <? 0); simpl.
  { left. reflexivity. }
  right. eexists. reflexivity.
Qed.

(** What the rest of [drm_atomic_commit] does once the modeset block has left
    the request [base]. *)
Lemma drm_atomic_commit_submit fb_id fl d base :
  (allows_modeset fl = false -> base = []) ->
  (if allows_modeset fl then modeset_properties w k d drmModeAtomicAlloc
   else ret drmModeAtomicAlloc) d = (Val base, d, blob_events w k d fl) ->
  commit_outcome w k fb_id fl d (drm_atomic_commit w k fb_id fl d).
Proof.
  intros Hbase Hms.
  unfold drm_atomic_commit, call, bind at 1, get.
  fold (allows_modeset fl).
  unfold bind at 1. rewrite Hms.
  pose proof (commit_rejected w k fb_id fl d base) as Hrej.
  pose proof (commit_accepted w k fb_id fl d base) as Hacc.
  unfold request, out_fence_requested, accepted_state, close_events in Hrej, Hacc.
  destruct (fence_properties d (plane_properties d fb_id base))
    as [req out_req] eqn:Efp.
  cbn [fst snd] in Hrej, Hacc.
  unfold atomic_commit, bind, emit, ret, return_, modify. simpl.
  remember (drmModeAtomicCommit w k req fl) as r eqn:Er.
  destruct (Z.eqb_spec r 0) as [E0|E0].
  - rewrite E0 in *.
    specialize (Hacc Hbase eq_refl).
    destruct out_req; destruct (kms_in_fence_fd d =? -1);
      simpl; rewrite ?app_nil_r; exact Hacc.
  - pose proof (proj2 (Z.eqb_neq _ _) E0) as E0'.
    simpl. rewrite E0'. simpl. rewrite ?app_nil_r.
    apply Hrej; [exact Hbase | reflexivity | exact E0].
Qed.

Lemma drm_atomic_commit_outcome fb_id fl d :
  commit_outcome w k fb_id fl d (drm_atomic_commit w k fb_id fl d).
Proof.
  destruct (allows_modeset fl) eqn:Ems.
  - destruct (modeset_properties_cases d fl Ems) as [E | (base & E)].
    + unfold drm_atomic_commit, call, bind at 1, get.
      fold (allows_modeset fl). rewrite Ems.
      unfold bind at 1. rewrite E.
      apply commit_abandoned; assumption.
    + apply drm_atomic_commit_submit with (base := base).
      * rewrite Ems. discriminate.
      * rewrite Ems. exact E.
  - apply drm_atomic_commit_submit with (base := []).
    + reflexivity.
    + rewrite Ems. unfold blob_events. rewrite Ems. reflexivity.
Qed.

End Commit.

(** ** One frame of atomic_run, stage by stage *)

Section Frame.

Variables (w : World) (k : nat).

Lemma import_kms_fence_eq d :
  import_kms_fence w k d =
  if kms_out_fence_fd d =? -1 then (Val NULL, d, [])
  else
    let f := eglCreateSyncKHR w k (kms_out_fence_fd d) in
    if f =? EGL_NO_SYNC_KHR
    then (Abort, d, [EvCreateSync (kms_out_fence_fd d) f])
    else (Val f, set_kms_out_fence_fd (-1) d,
          [EvCreateSync (kms_out_fence_fd d) f; EvWaitSync f]).
Proof.
  unfold import_kms_fence, bind at 1, get.
  destruct (kms_out_fence_fd d =? -1); simpl; [reflexivity|].
  unfold create_fence, bind, emit, assert, ret, modify. simpl.
  destruct (eglCreateSyncKHR w k (kms_out_fence_fd d) =? EGL_NO_SYNC_KHR) eqn:E;
    simpl; rewrite ?E; reflexivity.
Qed.

Lemma render_and_flip_eq l kms_fence d :
  render_and_flip w k l kms_fence d =
  let gpu_fence := eglCreateSyncKHR w k EGL_NO_NATIVE_FENCE_FD_ANDROID in
  let in_fd := eglDupNativeFenceFDANDROID w k in
  let next_bo := gbm_surface_lock_front_buffer w k in
  let d1 := set_kms_in_fence_fd in_fd d in
  if gpu_fence =? EGL_NO_SYNC_KHR
  then (Abort, d, [EvDraw (i l); EvCreateSync EGL_NO_NATIVE_FENCE_FD_ANDROID gpu_fence])
  else if in_fd =? -1 then (Abort, d1, render_events w k l)
  else if next_bo =? NULL
  then (Ret (-1), d1, render_events w k l ++ [EvLockFrontBuffer next_bo])
  else
    match drm_fb_get_from_bo w k with
    | None =>
        (Ret (-1), d1,
         render_events w k l
           ++ [EvLockFrontBuffer next_bo; EvFbGetFromBo next_bo None])
    | Some fb_id =>
        let head :=
          render_events w k l
            ++ [EvLockFrontBuffer next_bo; EvFbGetFromBo next_bo (Some fb_id)]
            ++ wait_events w k kms_fence in
        match drm_atomic_commit w k fb_id (flags l) d1 with
        | (Val r, d2, tc) =>
            if r =? 0
            then (Val (next_locals w k l), d2, head ++ tc ++ release_events l)
            else (Ret (-1), d2, head ++ tc)
        | (Ret z, d2, tc) => (Ret z, d2, head ++ tc)
        | (Abort, d2, tc) => (Abort, d2, head ++ tc)
        end
    end.
Proof.
  unfold render_and_flip, render_events, wait_events, release_events,
    next_locals, create_fence.
  unfold bind, emit, assert, ret, modify, return_. simpl.
  destruct (eglCreateSyncKHR w k EGL_NO_NATIVE_FENCE_FD_ANDROID =? EGL_NO_SYNC_KHR)
    eqn:E; simpl; rewrite ?E; simpl; [reflexivity|].
  destruct (eglDupNativeFenceFDANDROID w k =? -1); simpl; [reflexivity|].
  destruct (gbm_surface_lock_front_buffer w k =? NULL); simpl; [reflexivity|].
  destruct (drm_fb_get_from_bo w k) as [fb_id|]; simpl; [|reflexivity].
  destruct (kms_fence =? EGL_NO_SYNC_KHR); simpl;
    destruct (drm_atomic_commit w k fb_id (flags l)
                (set_kms_in_fence_fd (eglDupNativeFenceFDANDROID w k) d))
      as [[[r| z |] d2] tc]; simpl; try reflexivity;
    destruct (r =? 0); simpl; try reflexivity;
    destruct (bo l =? NULL); simpl; rewrite ?app_nil_r; reflexivity.
Qed.

Lemma atomic_run_frame_eq l d :
  atomic_run_frame w k l d =
  match import_kms_fence w k d with
  | (Val kms_fence, d1, t1) =>
      match render_and_flip w k l kms_fence d1 with
      | (r, d2, t2) => (r, d2, t1 ++ t2)
      end
  | (Ret z, d1, t1) => (Ret z, d1, t1)
  | (Abort, d1, t1) => (Abort, d1, t1)
  end.
Proof. reflexivity. Qed.

Lemma commit_outcome_val fb_id fl d x :
  commit_outcome w k fb_id fl d x -> exists r, result x = Val r.
Proof. intros H. destruct H; eexists; reflexivity. Qed.

Lemma render_and_flip_outcome l d :
  import_ok w k d ->
  match render_and_flip w k l (imported_fence w k d) (drm_at_draw d) with
  | (r, d2, t2) => frame_outcome w k l d (r, d2, import_events w k d ++ t2)
  end.
Proof.
  intros Himp. rewrite render_and_flip_eq. cbv zeta.
  fold (drm_at_commit w k d).
  destruct (Z.eqb_spec (eglCreateSyncKHR w k EGL_NO_NATIVE_FENCE_FD_ANDROID)
              EGL_NO_SYNC_KHR) as [Eg|Eg].
  { rewrite Eg. apply frame_gpu_fence_abort; assumption. }
  destruct (Z.eqb_spec (eglDupNativeFenceFDANDROID w k) (-1)) as [Ei|Ei].
  { apply frame_export_abort; assumption. }
  destruct (Z.eqb_spec (gbm_surface_lock_front_buffer w k) NULL) as [Eb|Eb].
  { rewrite Eb. apply frame_lock_failed; assumption. }
  destruct (drm_fb_get_from_bo w k) as [fb_id|] eqn:Efb.
  2:{ apply frame_fb_failed; assumption. }
  pose proof (drm_atomic_commit_outcome w k fb_id (flags l) (drm_at_commit w k d))
    as Hc.
  destruct (commit_outcome_val _ _ _ _ Hc) as [r Hr].
  destruct (drm_atomic_commit w k fb_id (flags l) (drm_at_commit w k d))
    as [[rc d2] tc] eqn:Ec.
  cbn in Hr. subst rc.
  destruct (Z.eqb_spec r 0) as [E0|E0].
  - subst r.
    pose proof (frame_passed w k l d fb_id d2 tc Himp Eg Ei Eb Efb Hc Ec) as H.
    unfold flip_events in H. rewrite <- !app_assoc in H. exact H.
  - pose proof (frame_commit_failed w k l d fb_id r d2 tc Himp Eg Ei Eb Efb Hc
                  Ec E0) as H.
    unfold flip_events in H. rewrite <- !app_assoc in H. exact H.
Qed.

(** Every pass through the loop body follows one of the paths of
    [frame_outcome]. *)
Lemma atomic_run_frame_outcome l d :
  frame_outcome w k l d (atomic_run_frame w k l d).
Proof.
  rewrite atomic_run_frame_eq, import_kms_fence_eq. cbv zeta.
  pose proof (render_and_flip_outcome l d) as Hr.
  unfold imported_fence, drm_at_draw, import_events, import_ok in Hr.
  unfold imported_fence in Hr.
  destruct (Z.eqb_spec (kms_out_fence_fd d) (-1)) as [Eo|Eo].
  - specialize (Hr (or_introl Eo)).
    destruct (render_and_flip w k l NULL d) as [[r d2] t2]. exact Hr.
  - destruct (Z.eqb_spec (eglCreateSyncKHR w k (kms_out_fence_fd d)) EGL_NO_SYNC_KHR)
      as [Ef|Ef].
    + rewrite Ef. apply frame_import_abort; assumption.
    + specialize (Hr (or_intror Ef)).
      destruct (render_and_flip w k l (eglCreateSyncKHR w k (kms_out_fence_fd d))
                  (set_kms_out_fence_fd (-1) d)) as [[r d2] t2].
      exact Hr.
Qed.

End Frame.

(** ** Reading traces *)

Ltac stages :=
  unfold flip_events, import_events, render_events, wait_events,
    release_events, close_events, blob_events, imported_fence in *.

Ltac split_ifs :=
  repeat match goal with
         | |- context [if ?c then _ else _] => destruct c eqn:?
         end.

Ltac absurd_path :=
  exfalso; unfold import_ok, NULL, EGL_NO_SYNC_KHR in *;
  solve [intuition congruence].

Ltac invert_commit :=
  match goal with
  | Hc : commit_outcome _ _ _ _ _ _ |- _ => inversion Hc; subst
  end.

Ltac to_prop :=
  repeat match goal with
         | H : (_ =? _) = true |- _ => apply Z.eqb_eq in H
         | H : (_ =? _) = false |- _ => apply Z.eqb_neq in H
         end.

Section Traces.

Variables (w : World) (k : nat).

Lemma commit_flags_app t1 t2 :
  commit_flags (t1 ++ t2) = commit_flags t1 ++ commit_flags t2.
Proof.
  induction t1 as [|e t1 IH]; [reflexivity|].
  destruct e; simpl; rewrite ?IH; reflexivity.
Qed.


(** A call of [drm_atomic_commit] submits at most one transaction, with the
    flags it was given. *)
Lemma commit_outcome_flags fb_id fl d r d2 tc :
  commit_outcome w k fb_id fl d (Val r, d2, tc) ->
  (commit_flags tc = [] /\ r = -1) \/ commit_flags tc = [fl].
Proof.
  intros H. inversion H; subst; stages; split_ifs; simpl; auto.
Qed.

Lemma commit_outcome_accepted_flags fb_id fl d d2 tc :
  commit_outcome w k fb_id fl d (Val 0, d2, tc) -> commit_flags tc = [fl].
Proof.
  intros H. destruct (commit_outcome_flags _ _ _ _ _ _ H) as [[_ E]|E];
    [discriminate | exact E].
Qed.

(** The transactions of one frame: none when the frame ends before the
    commit, one otherwise; a frame that goes through submits exactly one. *)
Lemma frame_commit_flags l d x :
  frame_outcome w k l d x ->
  (commit_flags (trace x) = [] \/ commit_flags (trace x) = [flags l])
  /\ (forall l', result x = Val l' ->
        commit_flags (trace x) = [flags l] /\ l' = next_locals w k l).
Proof.
  intros H. destruct H; cbn [trace result fst snd].
  1-5: split; [left; stages; split_ifs; reflexivity | discriminate].
  - split; [|discriminate].
    destruct (commit_outcome_flags _ _ _ _ _ _ H4) as [[E _]|E];
      rewrite commit_flags_app, E; [left|right];
      stages; split_ifs; reflexivity.
  - pose proof (commit_outcome_accepted_flags _ _ _ _ _ H4) as E.
    assert (commit_flags
              (flip_events w k l d (Some fb_id) ++ tc ++ release_events l)
            = [flags l]) as Hf.
    { rewrite !commit_flags_app, E. stages; split_ifs; reflexivity. }
    split; [right; exact Hf|].
    intros l' Hl. inversion Hl. split; [exact Hf | reflexivity].
Qed.

End Traces.

(** ** The loop *)

Section Loop.

Variable w : World.

Lemma atomic_run_loop_S n k l d :
  atomic_run_loop w (S n) k l d =
  match atomic_run_frame w k l d with
  | (Val l1, d1, t1) =>
      match atomic_run_loop w n (S k) l1 d1 with
      | (r, d2, t2) => (r, d2, t1 ++ t2)
      end
  | (Ret z, d1, t1) => (Ret z, d1, t1)
  | (Abort, d1, t1) => (Abort, d1, t1)
  end.
Proof. reflexivity. Qed.

(** [n + m] passes are [n] passes followed, if the loop is still running,
    by [m] more. *)
Lemma atomic_run_loop_add n m : forall k l d,
  atomic_run_loop w (n + m) k l d =
  match atomic_run_loop w n k l d with
  | (Val l1, d1, t1) =>
      match atomic_run_loop w m (n + k) l1 d1 with
      | (r, d2, t2) => (r, d2, t1 ++ t2)
      end
  | (Ret z, d1, t1) => (Ret z, d1, t1)
  | (Abort, d1, t1) => (Abort, d1, t1)
  end.
Proof.
  induction n as [|n IH]; intros k l d.
  - cbn [Nat.add atomic_run_loop ret].
    destruct (atomic_run_loop w m k l d) as [[r d2] t2]. reflexivity.
  - cbn [Nat.add]. rewrite !atomic_run_loop_S.
    destruct (atomic_run_frame w k l d) as [[[l1|z|] d1] t1]; try reflexivity.
    rewrite IH. rewrite Nat.add_succ_r.
    destruct (atomic_run_loop w n (S k) l1 d1) as [[[l2|z|] d2] t2];
      try reflexivity.
    destruct (atomic_run_loop w m (S (n + k)) l2 d2) as [[r d3] t3].
    rewrite app_assoc. reflexivity.
Qed.

(** Once the loop has been left, it stays left. *)
Lemma atomic_run_loop_halts n m k l d :
  (forall l', result (atomic_run_loop w n k l d) <> Val l') ->
  atomic_run_loop w (n + m) k l d = atomic_run_loop w n k l d.
Proof.
  intros H. rewrite atomic_run_loop_add.
  destruct (atomic_run_loop w n k l d) as [[[l1|z|] d1] t1]; try reflexivity.
  exfalso. apply (H l1). reflexivity.
Qed.

Lemma atomic_run_loop_snoc n k l d :
  atomic_run_loop w (S n) k l d =
  match atomic_run_loop w n k l d with
  | (Val l1, d1, t1) =>
      match atomic_run_frame w (n + k) l1 d1 with
      | (r, d2, t2) => (r, d2, t1 ++ t2)
      end
  | (Ret z, d1, t1) => (Ret z, d1, t1)
  | (Abort, d1, t1) => (Abort, d1, t1)
  end.
Proof.
  replace (S n) with (n + 1)%nat by lia.
  rewrite atomic_run_loop_add.
  destruct (atomic_run_loop w n k l d) as [[[l1|z|] d1] t1]; try reflexivity.
  rewrite atomic_run_loop_S. cbn [atomic_run_loop ret].
  destruct (atomic_run_frame w (n + k) l1 d1) as [[[l2|z|] d2] t2];
    rewrite ?app_nil_r; reflexivity.
Qed.

Lemma clear_modeset_idem fl :
  Z.land (Z.land fl (to_u32 (Z.lnot DRM_MODE_ATOMIC_ALLOW_MODESET)))
         (to_u32 (Z.lnot DRM_MODE_ATOMIC_ALLOW_MODESET)) =
  Z.land fl (to_u32 (Z.lnot DRM_MODE_ATOMIC_ALLOW_MODESET)).
Proof. rewrite <- Z.land_assoc, Z.land_diag. reflexivity. Qed.

Lemma expected_flags_cleared fl n :
  expected_flags (Z.land fl (to_u32 (Z.lnot DRM_MODE_ATOMIC_ALLOW_MODESET))) n =
  repeat (Z.land fl (to_u32 (Z.lnot DRM_MODE_ATOMIC_ALLOW_MODESET))) n.
Proof.
  destruct n as [|n]; [reflexivity|].
  unfold expected_flags. rewrite clear_modeset_idem. reflexivity.
Qed.

(** The flags of the transactions of [n] passes: those the loop was entered
    with for the first one, the same with ALLOW_MODESET cleared afterwards. *)
Lemma atomic_run_loop_flags n : forall k l d,
  (exists m, (m <= n)%nat
     /\ commit_flags (trace (atomic_run_loop w n k l d)) = expected_flags (flags l) m)
  /\ (forall l', result (atomic_run_loop w n k l d) = Val l' ->
        commit_flags (trace (atomic_run_loop w n k l d)) = expected_flags (flags l) n).
Proof.
  induction n as [|n IH]; intros k l d.
  - split; [exists O; split; [lia | reflexivity] | reflexivity].
  - rewrite atomic_run_loop_S.
    pose proof (frame_commit_flags w k l d _ (atomic_run_frame_outcome w k l d))
      as [Hany Hval].
    destruct (atomic_run_frame w k l d) as [[[l1|z|] d1] t1];
      cbn [trace result fst snd] in *.
    + destruct (Hval l1 eq_refl) as [Ht1 Hl1].
      destruct (IH (S k) l1 d1) as [(m & Hm & Em) Hv].
      destruct (atomic_run_loop w n (S k) l1 d1) as [[r d2] t2].
      cbn [trace result fst snd] in *.
      rewrite commit_flags_app, Ht1.
      rewrite Hl1 in Em, Hv. cbn [flags next_locals] in Em, Hv.
      rewrite expected_flags_cleared in Em, Hv.
      split.
      * exists (S m). split; [lia|]. rewrite Em. reflexivity.
      * intros l' Hl'. rewrite (Hv l' Hl'). reflexivity.
    + split; [|discriminate].
      destruct Hany as [E|E]; rewrite E.
      * exists O. split; [lia | reflexivity].
      * exists 1%nat. split; [lia | reflexivity].
    + split; [|discriminate].
      destruct Hany as [E|E]; rewrite E.
      * exists O. split; [lia | reflexivity].
      * exists 1%nat. split; [lia | reflexivity].
Qed.

End Loop.

(** ** The modeset flag *)

Section Modeset.

Lemma atomic_run_running w e n d l' :
  result (atomic_run w e n d) = Val l' ->
  atomic_run w e n d = atomic_run_loop w n 0 atomic_run_locals d.
Proof.
  unfold atomic_run.
  destruct (_ || _); [discriminate | reflexivity].
Qed.

Lemma filter_modeset_repeat m :
  filter allows_modeset (repeat DRM_MODE_ATOMIC_NONBLOCK m) = [].
Proof. induction m as [|m IH]; [reflexivity | simpl; exact IH]. Qed.

(** C3.  In a run that goes through [N] frames ([N] at least 1), [N]
    transactions are submitted; the first carries
    [DRM_MODE_ATOMIC_NONBLOCK | DRM_MODE_ATOMIC_ALLOW_MODESET] and the [N - 1]
    others carry [DRM_MODE_ATOMIC_NONBLOCK] alone, so exactly one transaction,
    that of frame 0, has the ALLOW_MODESET flag. *)
Theorem modeset_flag_on_first_frame_only
    (w : World) (e : egl) (d : drm) (N : nat) (l' : locals) :
  (0 < N)%nat ->
  result (atomic_run w e N d) = Val l' ->
  commit_flags (trace (atomic_run w e N d)) =
    Z.lor DRM_MODE_ATOMIC_NONBLOCK DRM_MODE_ATOMIC_ALLOW_MODESET
      :: repeat DRM_MODE_ATOMIC_NONBLOCK (N - 1)
  /\ List.length (commit_flags (trace (atomic_run w e N d))) = N
  /\ allows_modeset (nth 0 (commit_flags (trace (atomic_run w e N d))) 0) = true
  /\ List.length (filter allows_modeset
                    (commit_flags (trace (atomic_run w e N d)))) = 1%nat.
Proof.
  intros HN Hres.
  pose proof (atomic_run_running _ _ _ _ _ Hres) as Erun.
  rewrite Erun in *.
  destruct (atomic_run_loop_flags w N 0 atomic_run_locals d) as [_ Hv].
  rewrite (Hv l' Hres).
  destruct N as [|m]; [lia|].
  replace (S m - 1)%nat with m by lia.
  change (expected_flags (flags atomic_run_locals) (S m))
    with (Z.lor DRM_MODE_ATOMIC_NONBLOCK DRM_MODE_ATOMIC_ALLOW_MODESET
            :: repeat DRM_MODE_ATOMIC_NONBLOCK m).
  split; [reflexivity|].
  split; [simpl; rewrite repeat_length; reflexivity|].
  split; [reflexivity|].
  cbn [filter]. change (allows_modeset _) with true at 1. cbv iota.
  rewrite filter_modeset_repeat. reflexivity.
Qed.

Lemma modeset_flag_on_first_frame_only_witness :
  commit_flags
    (trace (atomic_run sample_world sample_egl 3 (init_drm_atomic sample_drm)))
  = [1536; 512; 512].
Proof.
  exact (proj1 (modeset_flag_on_first_frame_only sample_world sample_egl
                  (init_drm_atomic sample_drm) 3 (mkLocals 1000 3 512)
                  ltac:(lia) eq_refl)).
Defined.

End Modeset.

(** ** What the loop leaves alone, and the locals after [n] frames *)

Section Invariants.

Variable w : World.

Lemma same_device_refl d : same_device d d.
Proof. reflexivity. Qed.

Lemma same_device_trans d1 d2 d3 :
  same_device d1 d2 -> same_device d2 d3 -> same_device d1 d3.
Proof. unfold same_device. intros H1 H2. rewrite H2. exact H1. Qed.

Lemma same_device_set_in v d : same_device d (set_kms_in_fence_fd v d).
Proof. reflexivity. Qed.

Lemma same_device_set_out v d : same_device d (set_kms_out_fence_fd v d).
Proof. reflexivity. Qed.

Lemma same_device_fields d d' :
  same_device d d' ->
  drm_plane d' = drm_plane d /\ drm_crtc d' = drm_crtc d
  /\ drm_connector d' = drm_connector d /\ crtc_id d' = crtc_id d
  /\ connector_id d' = connector_id d /\ mode d' = mode d
  /\ kms_out_fence_ptr d' = kms_out_fence_ptr d.
Proof.
  unfold same_device, set_kms_in_fence_fd, set_kms_out_fence_fd.
  destruct d, d'. simpl. intros H. inversion H. repeat split.
Qed.

Lemma same_device_at_draw d : same_device d (drm_at_draw d).
Proof. unfold drm_at_draw. destruct (_ =? _); reflexivity. Qed.

Lemma same_device_at_commit k d : same_device d (drm_at_commit w k d).
Proof.
  unfold drm_at_commit, drm_at_draw. destruct (_ =? _); reflexivity.
Qed.

Lemma commit_outcome_same_device k fb_id fl d x :
  commit_outcome w k fb_id fl d x -> same_device d (final x).
Proof.
  intros H. destruct H; cbn [final fst snd]; try reflexivity.
  unfold accepted_state. split_ifs; reflexivity.
Qed.

Lemma frame_same_device k l d x :
  frame_outcome w k l d x -> same_device d (final x).
Proof.
  intros H. destruct H; cbn [final fst snd];
    try reflexivity;
    try apply same_device_at_draw; try apply same_device_at_commit.
  - eapply same_device_trans; [apply (same_device_at_commit k)|].
    apply (commit_outcome_same_device _ _ _ _ _ H4).
  - eapply same_device_trans; [apply (same_device_at_commit k)|].
    apply (commit_outcome_same_device _ _ _ _ _ H4).
Qed.

Lemma frame_next_locals k l d l' :
  result (atomic_run_frame w k l d) = Val l' -> l' = next_locals w k l.
Proof.
  pose proof (atomic_run_frame_outcome w k l d) as H.
  destruct H; cbn [result fst]; intros E; try discriminate.
  inversion E. reflexivity.
Qed.

(** After [n] passes the loop holds the buffer locked in the last pass, has
    counted [n] frames, and works on the same device. *)
Lemma atomic_run_loop_state n : forall d l' d' t,
  atomic_run_loop w n 0 atomic_run_locals d = (Val l', d', t) ->
  same_device d d'
  /\ bo l' = match n with
             | O => NULL
             | S j => gbm_surface_lock_front_buffer w j
             end
  /\ i l' = to_u32 (Z.of_nat n).
Proof.
  induction n as [|n IH]; intros d l' d' t H.
  - inversion H. subst. repeat split.
  - rewrite atomic_run_loop_snoc in H.
    destruct (atomic_run_loop w n 0 atomic_run_locals d)
      as [[[l1|z|] d1] t1] eqn:E1; try discriminate.
    destruct (IH _ _ _ _ E1) as (Hd & _ & Hi).
    rewrite Nat.add_0_r in H.
    pose proof (frame_same_device n l1 d1 _ (atomic_run_frame_outcome w n l1 d1))
      as Hd1.
    pose proof (frame_next_locals n l1 d1) as Hl.
    destruct (atomic_run_frame w n l1 d1) as [[r d2] t2].
    inversion H. subst. cbn [result final fst snd] in *.
    rewrite (Hl l' eq_refl). cbn [bo i next_locals].
    split; [eapply same_device_trans; eassumption|].
    split; [reflexivity|].
    rewrite Hi. unfold to_u32.
    rewrite Nat2Z.inj_succ, Z.add_mod_idemp_l by lia.
    reflexivity.
Qed.

End Invariants.

(** ** Buffer hand-over *)


Section Buffers.

Variable w : World.






End Buffers.

Section BufferRelease.

Lemma atomic_run_checked w e n d l' :
  result (atomic_run w e n d) = Val l' ->
  forall m, atomic_run w e m d = atomic_run_loop w m 0 atomic_run_locals d.
Proof.
  unfold atomic_run.
  destruct (_ || _); [discriminate | reflexivity].
Qed.



End BufferRelease.

(** ** The CPU-side wait and the import of the out-fence *)

Section Waits.

Variable w : World.





End Waits.



Section OutFenceImport.

Variable w : World.

Lemma commit_no_draw k fb_id fl d x :
  commit_outcome w k fb_id fl d x -> filter is_draw (trace x) = [].
Proof.
  intros H. destruct H; cbn [trace snd]; stages; split_ifs; reflexivity.
Qed.

(** From [egl->draw] on, the pass calls the renderer once, first of all. *)
Lemma render_and_flip_draws_first k l kms_fence d :
  exists rest,
    trace (render_and_flip w k l kms_fence d) = EvDraw (i l) :: rest
    /\ filter is_draw rest = [].
Proof.
  rewrite render_and_flip_eq. cbv zeta.
  destruct (_ =? EGL_NO_SYNC_KHR).
  { eexists. split; reflexivity. }
  destruct (_ =? -1).
  { eexists. split; reflexivity. }
  destruct (_ =? NULL).
  { eexists. split; reflexivity. }
  destruct (drm_fb_get_from_bo w k) as [fb_id|].
  2:{ eexists. split; reflexivity. }
  pose proof (commit_no_draw _ _ _ _ _
                (drm_atomic_commit_outcome w k fb_id (flags l)
                   (set_kms_in_fence_fd (eglDupNativeFenceFDANDROID w k) d)))
    as Hc.
  destruct (drm_atomic_commit w k fb_id (flags l)
              (set_kms_in_fence_fd (eglDupNativeFenceFDANDROID w k) d))
    as [[[r|z|] d2] tc]; cbn [trace snd] in Hc.
  - destruct (r =? 0); (eexists; split; [reflexivity|]);
      cbn [app filter is_draw]; rewrite !filter_app, Hc;
      stages; split_ifs; reflexivity.
  - eexists. split; [reflexivity|].
    cbn [app filter is_draw]. rewrite !filter_app, Hc.
    stages; split_ifs; reflexivity.
  - eexists. split; [reflexivity|].
    cbn [app filter is_draw]. rewrite !filter_app, Hc.
    stages; split_ifs; reflexivity.
Qed.

(** C7.  Let an out-fence fd be pending when a pass through the loop body
    starts.  Either EGL hands out no sync object for it and the pass stops
    at the [assert] without calling the renderer, or the fd is imported as a
    sync object, [kms_out_fence_fd] is set to -1, the GPU-side wait on that
    object is inserted, and only then the renderer is called, once: the
    renderer is the third event of the pass, after the import and the
    GPU-side wait, and runs with the field cleared. *)
Theorem out_fence_imported_before_render
    (k : nat) (l : locals) (d : drm) :
  kms_out_fence_fd d <> -1 ->
  (eglCreateSyncKHR w k (kms_out_fence_fd d) = EGL_NO_SYNC_KHR
   /\ atomic_run_frame w k l d =
        (Abort, d, [EvCreateSync (kms_out_fence_fd d) EGL_NO_SYNC_KHR]))
  \/ (eglCreateSyncKHR w k (kms_out_fence_fd d) <> EGL_NO_SYNC_KHR
      /\ import_kms_fence w k d =
           (Val (eglCreateSyncKHR w k (kms_out_fence_fd d)),
            set_kms_out_fence_fd (-1) d,
            [ EvCreateSync (kms_out_fence_fd d)
                (eglCreateSyncKHR w k (kms_out_fence_fd d));
              EvWaitSync (eglCreateSyncKHR w k (kms_out_fence_fd d)) ])
      /\ kms_out_fence_fd (set_kms_out_fence_fd (-1) d) = -1
      /\ exists rest,
           trace (render_and_flip w k l
                    (eglCreateSyncKHR w k (kms_out_fence_fd d))
                    (set_kms_out_fence_fd (-1) d)) = EvDraw (i l) :: rest
           /\ trace (atomic_run_frame w k l d) =
                EvCreateSync (kms_out_fence_fd d)
                  (eglCreateSyncKHR w k (kms_out_fence_fd d))
                :: EvWaitSync (eglCreateSyncKHR w k (kms_out_fence_fd d))
                :: EvDraw (i l) :: rest
           /\ filter is_draw rest = []
           /\ index_of is_draw (trace (atomic_run_frame w k l d)) = Some 2%nat).
Proof.
  intros Hout.
  pose proof (import_kms_fence_eq w k d) as Himp. cbv zeta in Himp.
  destruct (Z.eqb_spec (kms_out_fence_fd d) (-1)) as [E|_]; [contradiction|].
  destruct (Z.eqb_spec (eglCreateSyncKHR w k (kms_out_fence_fd d)) EGL_NO_SYNC_KHR)
    as [Ef|Ef].
  - left. split; [exact Ef|].
    rewrite atomic_run_frame_eq, Himp, Ef. reflexivity.
  - right. split; [exact Ef|]. split; [exact Himp|]. split; [reflexivity|].
    destruct (render_and_flip_draws_first k l
                (eglCreateSyncKHR w k (kms_out_fence_fd d))
                (set_kms_out_fence_fd (-1) d)) as (rest & Hr & Hd).
    exists rest. split; [exact Hr|].
    assert (trace (atomic_run_frame w k l d) =
            EvCreateSync (kms_out_fence_fd d)
              (eglCreateSyncKHR w k (kms_out_fence_fd d))
            :: EvWaitSync (eglCreateSyncKHR w k (kms_out_fence_fd d))
            :: EvDraw (i l) :: rest) as Ht.
    { rewrite atomic_run_frame_eq, Himp.
      destruct (render_and_flip w k l
                  (eglCreateSyncKHR w k (kms_out_fence_fd d))
                  (set_kms_out_fence_fd (-1) d)) as [[r d2] t2].
      cbn [trace snd] in *. rewrite Hr. reflexivity. }
    split; [exact Ht|]. split; [exact Hd|].
    rewrite Ht. reflexivity.
Qed.

End OutFenceImport.

Lemma out_fence_imported_before_render_witness :
  index_of is_draw
    (trace (atomic_run_frame sample_world 1 (mkLocals 1000 1 512)
              (set_kms_out_fence_fd 20 sample_drm))) = Some 2%nat.
Proof.
  destruct (out_fence_imported_before_render sample_world 1
              (mkLocals 1000 1 512) (set_kms_out_fence_fd 20 sample_drm)
              ltac:(simpl; lia)) as [[Hf _] | (_ & _ & _ & rest & _ & _ & _ & Hi)].
  - discriminate Hf.
  - exact Hi.
Defined.

(** ** The life of the fences *)

Section Fences.

Variable w : World.



End Fences.

Section FenceLife.

Variable w : World.



End FenceLife.


(** ** What a submitted request holds *)

Section Requests.

Variable w : World.

Lemma in_commit_reqs req fl r t :
  In (EvAtomicCommit req fl r) t -> In req (commit_reqs t).
Proof.
  induction t as [|e t IH]; intros H; [contradiction|].
  destruct H as [H|H].
  - subst e. left. reflexivity.
  - destruct e; simpl; auto.
Qed.

Lemma plane_resolves_same_device d d' nm :
  same_device d d' -> plane_resolves d' nm = plane_resolves d nm.
Proof.
  intros H. destruct (same_device_fields _ _ H) as (Hp & _).
  unfold plane_resolves. rewrite Hp. reflexivity.
Qed.

Lemma plane_prop_same_device d d' nm :
  same_device d d' -> plane_prop d' nm = plane_prop d nm.
Proof.
  intros H. destruct (same_device_fields _ _ H) as (Hp & _).
  unfold plane_prop. rewrite Hp. reflexivity.
Qed.






(** With fencing on and IN_FENCE_FD exposed, the request ends with the
    in-fence entry, whose value is [kms_in_fence_fd]. *)
Lemma fence_properties_in_fence d req :
  kms_in_fence_fd d <> -1 ->
  plane_resolves d "IN_FENCE_FD" = true ->
  exists pre,
    fst (fence_properties d req) =
    pre ++ [mkItem (plane_id (drm_plane d)) (plane_prop d "IN_FENCE_FD")
              (to_u64 (kms_in_fence_fd d))].
Proof.
  intros Hin Hres. unfold fence_properties.
  destruct (Z.eqb_spec (kms_in_fence_fd d) (-1)) as [E|_]; [contradiction|].
  cbn [negb].
  destruct (add_crtc_property d req (crtc_id d) "OUT_FENCE_PTR"
              (to_u64 (kms_out_fence_ptr d))) as [req1 r1].
  cbn [fst]. rewrite add_plane_property_resolves by exact Hres.
  exists req1. reflexivity.
Qed.

(** The transactions of one pass are requests built on the [struct drm] as it
    is when [drm_atomic_commit] is called, and the fd exported in the pass is
    a valid one. *)
Lemma frame_commit_reqs k l d req :
  In req (commit_reqs (trace (atomic_run_frame w k l d))) ->
  eglDupNativeFenceFDANDROID w k <> -1
  /\ exists fb_id base, req = request (drm_at_commit w k d) fb_id base.
Proof.
  pose proof (atomic_run_frame_outcome w k l d) as H.
  destruct H; cbn [trace snd]; intros Hin.
  1-5: exfalso; stages; revert Hin; split_ifs; intros Hin; exact Hin.
  - split; [assumption|].
    invert_commit; stages; revert Hin; split_ifs; intros Hin;
      simpl in Hin; try contradiction;
      (destruct Hin as [Hin|[]]; subst req; eexists; eexists; reflexivity).
  - split; [assumption|].
    invert_commit; stages; revert Hin; split_ifs; intros Hin;
      simpl in Hin; try contradiction;
      (destruct Hin as [Hin|[]]; subst req; eexists; eexists; reflexivity).
Qed.

End Requests.

Section Geometry.

Variable w : World.



End Geometry.


Section InFence.

Variable w : World.

Lemma frame_export_before_commit k l d :
  commit_reqs (trace (atomic_run_frame w k l d)) <> [] ->
  exists t2,
    trace (atomic_run_frame w k l d) =
      (import_events w k d ++ [EvDraw (i l)])
      ++ [ EvCreateSync EGL_NO_NATIVE_FENCE_FD_ANDROID
             (eglCreateSyncKHR w k EGL_NO_NATIVE_FENCE_FD_ANDROID);
           EvSwapBuffers;
           EvDupNativeFenceFD
             (eglCreateSyncKHR w k EGL_NO_NATIVE_FENCE_FD_ANDROID)
             (eglDupNativeFenceFDANDROID w k);
           EvDestroySync (eglCreateSyncKHR w k EGL_NO_NATIVE_FENCE_FD_ANDROID) ]
      ++ t2.
Proof.
  pose proof (atomic_run_frame_outcome w k l d) as H.
  destruct H; cbn [trace snd]; intros Hne.
  1-5: exfalso; apply Hne; stages; split_ifs; reflexivity.
  - eexists. unfold flip_events, render_events.
    rewrite <- !app_assoc. reflexivity.
  - eexists. unfold flip_events, render_events.
    rewrite <- !app_assoc. reflexivity.
Qed.

(** C6.  Let iteration [k] be reached, on a plane that exposes IN_FENCE_FD.
    Every transaction submitted in iteration [k] comes after the GPU fence of
    the iteration has been created and exported as a fd, and the request
    ends with the plane's IN_FENCE_FD entry whose value is that fd (converted
    to [uint64_t]): the in-fence of transaction [k] is the fence exported in
    iteration [k]. *)
Theorem in_fence_is_fence_exported_in_same_iteration
    (e : egl) (d0 : drm) (k : nat)
    (lk : locals) (dk : drm) (tk : list event) :
  atomic_run w e k d0 = (Val lk, dk, tk) ->
  plane_resolves d0 "IN_FENCE_FD" = true ->
  forall req fl r,
    In (EvAtomicCommit req fl r) (trace (atomic_run_frame w k lk dk)) ->
    eglDupNativeFenceFDANDROID w k <> -1
    /\ exists t1 t2 pre,
         trace (atomic_run_frame w k lk dk) =
           t1 ++ [ EvCreateSync EGL_NO_NATIVE_FENCE_FD_ANDROID
                     (eglCreateSyncKHR w k EGL_NO_NATIVE_FENCE_FD_ANDROID);
                   EvSwapBuffers;
                   EvDupNativeFenceFD
                     (eglCreateSyncKHR w k EGL_NO_NATIVE_FENCE_FD_ANDROID)
                     (eglDupNativeFenceFDANDROID w k);
                   EvDestroySync
                     (eglCreateSyncKHR w k EGL_NO_NATIVE_FENCE_FD_ANDROID) ]
              ++ t2
         /\ commit_reqs t1 = []
         /\ req = pre ++ [ mkItem (plane_id (drm_plane d0))
                             (plane_prop d0 "IN_FENCE_FD")
                             (to_u64 (eglDupNativeFenceFDANDROID w k)) ].
Proof.
  intros Hrun Hres req fl r Hin.
  assert (result (atomic_run w e k d0) = Val lk) as Hval
    by (rewrite Hrun; reflexivity).
  rewrite (atomic_run_checked _ _ _ _ _ Hval) in Hrun.
  destruct (atomic_run_loop_state w k _ _ _ _ Hrun) as (Hs & _ & _).
  pose proof (in_commit_reqs _ _ _ _ Hin) as Hreq.
  destruct (frame_commit_reqs w k lk dk req Hreq) as (Hfd & fb_id & base & E).
  split; [exact Hfd|].
  destruct (frame_export_before_commit k lk dk) as (t2 & Et).
  { intros C. rewrite C in Hreq. contradiction. }
  assert (same_device d0 (drm_at_commit w k dk)) as Hs'.
  { eapply same_device_trans; [exact Hs | apply same_device_at_commit]. }
  destruct (fence_properties_in_fence (drm_at_commit w k dk)
              (plane_properties (drm_at_commit w k dk) fb_id base))
    as (pre & Hp).
  { exact Hfd. }
  { rewrite (plane_resolves_same_device _ _ _ Hs'). exact Hres. }
  exists (import_events w k dk ++ [EvDraw (i lk)]), t2, pre.
  split; [exact Et|]. split.
  - stages. split_ifs; reflexivity.
  - subst req. unfold request. rewrite Hp.
    rewrite (plane_prop_same_device _ _ _ Hs').
    destruct (same_device_fields _ _ Hs') as (Hpl & _). rewrite Hpl.
    reflexivity.
Qed.

End InFence.

Lemma in_fence_is_fence_exported_in_same_iteration_witness :
  exists pre,
    nth 1 (commit_reqs
             (trace (atomic_run sample_world sample_egl 3
                       (init_drm_atomic sample_drm)))) []
    = pre ++ [mkItem 31 17 11].
Proof.
  assert (atomic_run sample_world sample_egl 1 (init_drm_atomic sample_drm) =
          (Val (mkLocals 1000 1 512),
           final (atomic_run sample_world sample_egl 1
                    (init_drm_atomic sample_drm)),
           trace (atomic_run sample_world sample_egl 1
                    (init_drm_atomic sample_drm)))) as Hrun
    by (vm_compute; reflexivity).
  destruct (in_fence_is_fence_exported_in_same_iteration
              sample_world sample_egl (init_drm_atomic sample_drm) 1 _ _ _
              Hrun eq_refl
              (nth 1 (commit_reqs
                        (trace (atomic_run sample_world sample_egl 3
                                  (init_drm_atomic sample_drm)))) [])
              512 0)
    as (_ & t1 & t2 & pre & _ & _ & E).
  - vm_compute. tauto.
  - exists pre. exact E.
Defined.

(** ** The in-fence fd across a commit *)

Section InFenceClose.

Variable w : World.

(** C10.  With fencing on ([kms_in_fence_fd] is not -1), a call of
    [drm_atomic_commit] that succeeds has submitted one transaction and then
    closed the in-fence fd, once, and has set the field to -1; a call that
    fails leaves the field as it was and closes nothing.  In the loop, a pass
    that goes through therefore submits one transaction, closes the fd that
    was exported in that pass, and ends with the field at -1: the exported
    fd serves one transaction. *)
Theorem in_fence_closed_and_reset_on_successful_commit_only
    (k : nat) (fb_id fl : Z) (d : drm) :
  kms_in_fence_fd d <> -1 ->
  (result (drm_atomic_commit w k fb_id fl d) = Val 0 ->
     kms_in_fence_fd (final (drm_atomic_commit w k fb_id fl d)) = -1
     /\ exists pre req,
          trace (drm_atomic_commit w k fb_id fl d) =
            pre ++ [EvAtomicCommit req fl 0; EvClose (kms_in_fence_fd d)]
          /\ filter is_close pre = []
          /\ commit_reqs pre = [])
  /\ (result (drm_atomic_commit w k fb_id fl d) <> Val 0 ->
        kms_in_fence_fd (final (drm_atomic_commit w k fb_id fl d)) =
          kms_in_fence_fd d
        /\ filter is_close (trace (drm_atomic_commit w k fb_id fl d)) = [])
  /\ (forall l l' d1,
        result (atomic_run_frame w k l d1) = Val l' ->
        kms_in_fence_fd (final (atomic_run_frame w k l d1)) = -1
        /\ filter is_close (trace (atomic_run_frame w k l d1)) =
             [EvClose (eglDupNativeFenceFDANDROID w k)]
        /\ List.length (commit_reqs (trace (atomic_run_frame w k l d1))) = 1%nat).
Proof.
  intros Hin.
  pose proof (drm_atomic_commit_outcome w k fb_id fl d) as H.
  split; [|split].
  - destruct H; cbn [result final trace fst snd]; intros E;
      try (inversion E; congruence).
    unfold accepted_state, close_events.
    destruct (Z.eqb_spec (kms_in_fence_fd d) (-1)) as [C|_]; [contradiction|].
    split; [reflexivity|].
    exists (blob_events w k d fl), (request d fb_id base).
    split; [reflexivity|].
    unfold blob_events. split_ifs; split; reflexivity.
  - destruct H; cbn [result final trace fst snd]; intros E;
      try (exfalso; apply E; reflexivity);
      (split; [reflexivity|]); stages; split_ifs; reflexivity.
  - intros l l' d1.
    pose proof (atomic_run_frame_outcome w k l d1) as Hf.
    destruct Hf; cbn [result final trace fst snd]; intros E; try discriminate.
    invert_commit; [congruence|].
    unfold accepted_state, drm_at_commit, drm_at_draw.
    stages. cbn [kms_in_fence_fd set_kms_in_fence_fd].
    split_ifs; to_prop; try absurd_path; try contradiction;
      repeat split; reflexivity.
Qed.

End InFenceClose.

Lemma in_fence_closed_and_reset_on_successful_commit_only_witness :
  kms_in_fence_fd
    (final (drm_atomic_commit sample_world 1 51 512
              (set_kms_in_fence_fd 11 (init_drm_atomic sample_drm)))) = -1.
Proof.
  exact (proj1 (proj1 (in_fence_closed_and_reset_on_successful_commit_only
           sample_world 1 51 512
           (set_kms_in_fence_fd 11 (init_drm_atomic sample_drm))
           ltac:(simpl; lia)) eq_refl)).
Defined.

(** ** Unresolved property names *)

Section Unresolved.

Variable w : World.

Lemma modeset_properties_unresolved k d fl :
  allows_modeset fl = true ->
  crtc_lacks_modeset_property d ->
  modeset_properties w k d drmModeAtomicAlloc d =
    (Ret (-1), d, blob_events w k d fl).
Proof.
  intros Hfl Hlack. unfold modeset_properties, blob_events. rewrite Hfl.
  destruct (add_connector_property d drmModeAtomicAlloc (connector_id d)
              "CRTC_ID" (crtc_id d)) as [req1 r1].
  cbn [fst snd andb].
  destruct (r1 <? 0); cbn [negb]; [reflexivity|].
  unfold create_property_blob, bind, emit, ret, return_. simpl.
  destruct (fst (drmModeCreatePropertyBlob w k) =? 0); simpl; [|reflexivity].
  destruct Hlack as [Hm|Ha].
  - rewrite (add_crtc_property_absent _ _ _ _ _ Hm). reflexivity.
  - destruct (add_crtc_property d req1 (crtc_id d) "MODE_ID"
                (snd (drmModeCreatePropertyBlob w k))) as [req2 r2].
    destruct (r2 <? 0); simpl; [reflexivity|].
    rewrite (add_crtc_property_absent _ _ _ _ _ Ha). reflexivity.
Qed.

Lemma drm_atomic_commit_unresolved k fb_id fl d :
  allows_modeset fl = true ->
  crtc_lacks_modeset_property d ->
  drm_atomic_commit w k fb_id fl d = (Val (-1), d, blob_events w k d fl).
Proof.
  intros Hfl Hlack.
  unfold drm_atomic_commit, call, bind at 1, get.
  fold (allows_modeset fl). rewrite Hfl.
  unfold bind at 1.
  rewrite (modeset_properties_unresolved k d fl Hfl Hlack). reflexivity.
Qed.

Lemma drm_atomic_commit_no_modeset k fb_id fl d :
  allows_modeset fl = false ->
  trace (drm_atomic_commit w k fb_id fl d) =
    EvAtomicCommit (request d fb_id []) fl
      (drmModeAtomicCommit w k (request d fb_id []) fl)
    :: (if drmModeAtomicCommit w k (request d fb_id []) fl =? 0
        then close_events d else []).
Proof.
  intros Hfl.
  pose proof (drm_atomic_commit_outcome w k fb_id fl d) as H.
  destruct H as [Hms | base r Hb Hr Hnz | base Hb H0]; cbn [trace snd];
    [congruence| |].
  - specialize (Hb Hfl). subst base r.
    unfold blob_events. rewrite Hfl. cbn [andb app].
    destruct (Z.eqb_spec (drmModeAtomicCommit w k (request d fb_id []) fl) 0)
      as [E|E]; [contradiction | reflexivity].
  - specialize (Hb Hfl). subst base.
    unfold blob_events. rewrite Hfl. cbn [andb app].
    rewrite H0. reflexivity.
Qed.

(** C1, as the code has it.  When the modeset is allowed and the crtc lacks
    MODE_ID or ACTIVE, [drm_atomic_commit] returns -1 without submitting
    anything and leaves the [struct drm] as it was.  A plane property whose
    name is absent is skipped ([add_plane_property] returns [-EINVAL] and
    the request is unchanged), and the transaction is submitted all the
    same: when the modeset is not allowed, every call submits exactly one
    transaction, made of the entries that went in. *)
Theorem unresolved_property_abandons_modeset_only
    (k : nat) (fb_id fl : Z) (d : drm) :
  (allows_modeset fl = true ->
   crtc_lacks_modeset_property d ->
   result (drm_atomic_commit w k fb_id fl d) = Val (-1)
   /\ final (drm_atomic_commit w k fb_id fl d) = d
   /\ commit_reqs (trace (drm_atomic_commit w k fb_id fl d)) = [])
  /\ (forall nm req obj v,
        has_prop nm (plane_props_info (drm_plane d)) = false ->
        add_plane_property d req obj nm v = (req, - EINVAL))
  /\ (allows_modeset fl = false ->
      commit_reqs (trace (drm_atomic_commit w k fb_id fl d)) =
        [request d fb_id []]).
Proof.
  split; [|split].
  - intros Hfl Hlack.
    rewrite (drm_atomic_commit_unresolved k fb_id fl d Hfl Hlack).
    cbn [result final trace fst snd].
    repeat split. unfold blob_events. split_ifs; reflexivity.
  - intros nm req obj v H. apply add_plane_property_absent. exact H.
  - intros Hfl. rewrite (drm_atomic_commit_no_modeset k fb_id fl d Hfl).
    cbn [commit_reqs]. unfold close_events. split_ifs; reflexivity.
Qed.



End Unresolved.

(** C1, as stated, fails: on a plane without FB_ID the resolution of FB_ID
    fails, and the transaction is submitted with the other entries. *)
Lemma transaction_submitted_without_unresolved_plane_property :
  add_plane_property (set_kms_in_fence_fd 11 (init_drm_atomic drm_without_fb_id))
    [] 31 "FB_ID" 51 = ([], -22)
  /\ trace (drm_atomic_commit sample_world 1 51 512
              (set_kms_in_fence_fd 11 (init_drm_atomic drm_without_fb_id))) =
       [ EvAtomicCommit
           [ mkItem 31 19 41; mkItem 31 12 0; mkItem 31 13 0;
             mkItem 31 14 125829120; mkItem 31 15 70778880;
             mkItem 31 8 0; mkItem 31 9 0; mkItem 31 10 1920;
             mkItem 31 11 1080; mkItem 41 23 4096; mkItem 31 17 11 ]
           512 0;
         EvClose 11 ]
  /\ List.length
       (commit_reqs
          (trace (atomic_run sample_world sample_egl 3
                    (init_drm_atomic drm_without_fb_id)))) = 3%nat.
Proof. repeat split; vm_compute; reflexivity. Qed.

Lemma unresolved_property_abandons_modeset_only_witness :
  result (drm_atomic_commit sample_world 0 50 1536
            (set_kms_in_fence_fd 10 (init_drm_atomic drm_without_mode_id)))
    = Val (-1)
  /\ commit_reqs
       (trace (drm_atomic_commit sample_world 1 51 512
                 (set_kms_in_fence_fd 11 (init_drm_atomic drm_without_fb_id))))
     = [ [ mkItem 31 19 41; mkItem 31 12 0; mkItem 31 13 0;
           mkItem 31 14 125829120; mkItem 31 15 70778880;
           mkItem 31 8 0; mkItem 31 9 0; mkItem 31 10 1920;
           mkItem 31 11 1080; mkItem 41 23 4096; mkItem 31 17 11 ] ].
Proof.
  split.
  - exact (proj1 (proj1 (unresolved_property_abandons_modeset_only
             sample_world 0 50 1536
             (set_kms_in_fence_fd 10 (init_drm_atomic drm_without_mode_id)))
             eq_refl (or_introl eq_refl))).
  - exact (proj2 (proj2 (unresolved_property_abandons_modeset_only
             sample_world 1 51 512
             (set_kms_in_fence_fd 11 (init_drm_atomic drm_without_fb_id)))) 
             eq_refl).
Defined.



(** ** get_plane_id *)

Section PlaneChoice.

Variables (dev : device) (crtc_index : Z).

Lemma scan_planes_found planes ret :
  scan_planes dev crtc_index planes ret true = Done ret.
Proof. destruct planes; reflexivity. Qed.

(** One turn of the outer loop, read through [classify_plane]. *)
Lemma scan_planes_step id rest ret :
  scan_planes dev crtc_index (id :: rest) ret false =
  match classify_plane dev crtc_index id with
  | Passed => scan_planes dev crtc_index rest ret false
  | Taken primary => scan_planes dev crtc_index rest (to_int id) primary
  | Faulty => Fault
  end.
Proof.
  unfold classify_plane. cbn [scan_planes].
  destruct (drmModeGetPlane dev id) as [plane|]; [|reflexivity].
  destruct (serves_crtc plane crtc_index); [|reflexivity].
  destruct (drmModeObjectGetProperties dev id DRM_MODE_OBJECT_PLANE)
    as [props|]; [|reflexivity].
  destruct (scan_plane_type dev props false); reflexivity.
Qed.

Lemma scan_planes_passed planes : forall ret,
  Forall (fun id => classify_plane dev crtc_index id = Passed) planes ->
  scan_planes dev crtc_index planes ret false = Done ret.
Proof.
  induction planes as [|id rest IH]; intros ret H; [reflexivity|].
  inversion H; subst. rewrite scan_planes_step.
  match goal with E : classify_plane _ _ _ = Passed |- _ => rewrite E end.
  apply IH. assumption.
Qed.

(** Planes that are passed over or taken without being primary do not stop
    the scan. *)
Lemma scan_planes_not_primary before : forall rest ret,
  Forall (fun id => classify_plane dev crtc_index id = Passed
                    \/ classify_plane dev crtc_index id = Taken false) before ->
  exists ret',
    scan_planes dev crtc_index (before ++ rest) ret false =
    scan_planes dev crtc_index rest ret' false.
Proof.
  induction before as [|id before IH]; intros rest ret H.
  - exists ret. reflexivity.
  - inversion H; subst. cbn [app]. rewrite scan_planes_step.
    match goal with E : _ \/ _ |- _ => destruct E as [E|E]; rewrite E end;
      apply IH; assumption.
Qed.

(** X1.  [get_plane_id] returns the first primary plane that serves the
    crtc: when the planes listed before it are passed over or taken without
    being primary, the result is its id, whatever comes after it. *)
Theorem get_plane_id_prefers_first_primary
    (before after : list Z) (id : Z) :
  drmModeGetPlaneResources dev = Some (before ++ id :: after) ->
  Forall (fun id' => classify_plane dev crtc_index id' = Passed
                     \/ classify_plane dev crtc_index id' = Taken false) before ->
  classify_plane dev crtc_index id = Taken true ->
  get_plane_id dev crtc_index = Done (to_int id).
Proof.
  intros Hres Hbefore Hid. unfold get_plane_id. rewrite Hres.
  destruct (scan_planes_not_primary before (id :: after) (- EINVAL) Hbefore)
    as (ret' & E).
  rewrite E, scan_planes_step, Hid. apply scan_planes_found.
Qed.

(** X2.  Without a primary plane, [get_plane_id] returns the last plane that
    serves the crtc (each one taken overwrites the one before). *)
Theorem get_plane_id_falls_back_to_last_taken
    (before after : list Z) (id : Z) :
  drmModeGetPlaneResources dev = Some (before ++ id :: after) ->
  Forall (fun id' => classify_plane dev crtc_index id' = Passed
                     \/ classify_plane dev crtc_index id' = Taken false) before ->
  classify_plane dev crtc_index id = Taken false ->
  Forall (fun id' => classify_plane dev crtc_index id' = Passed) after ->
  get_plane_id dev crtc_index = Done (to_int id).
Proof.
  intros Hres Hbefore Hid Hafter. unfold get_plane_id. rewrite Hres.
  destruct (scan_planes_not_primary before (id :: after) (- EINVAL) Hbefore)
    as (ret' & E).
  rewrite E, scan_planes_step, Hid. apply scan_planes_passed. exact Hafter.
Qed.

Lemma scan_planes_sound planes : forall ret found r,
  scan_planes dev crtc_index planes ret found = Done r ->
  r = ret
  \/ exists id primary,
       In id planes /\ classify_plane dev crtc_index id = Taken primary
       /\ r = to_int id.
Proof.
  induction planes as [|id rest IH]; intros ret found r H.
  - inversion H. left. reflexivity.
  - destruct found.
    { rewrite scan_planes_found in H. inversion H. left. reflexivity. }
    rewrite scan_planes_step in H.
    destruct (classify_plane dev crtc_index id) as [|primary|] eqn:Ec.
    + destruct (IH _ _ _ H) as [E|(id' & p & Hin & Hc & E)]; [left; exact E|].
      right. exists id', p. split; [right; exact Hin | split; assumption].
    + destruct (IH _ _ _ H) as [E|(id' & p & Hin & Hc & E)].
      * right. exists id, primary. split; [left; reflexivity | split; assumption].
      * right. exists id', p. split; [right; exact Hin | split; assumption].
    + discriminate.
Qed.

(** X3.  A result of [get_plane_id] is -1 (no plane list), [-EINVAL] (no
    plane taken), or the id, converted to [int], of a listed plane that the
    device can load and that serves the crtc.  In particular the result is 0,
    the one value [init_drm_atomic] tests for, only if such a plane has an id
    that converts to 0. *)
Theorem get_plane_id_sound (r : Z) :
  get_plane_id dev crtc_index = Done r ->
  (drmModeGetPlaneResources dev = None /\ r = -1)
  \/ (exists planes, drmModeGetPlaneResources dev = Some planes
        /\ (r = - EINVAL
            \/ exists id plane,
                 In id planes /\ drmModeGetPlane dev id = Some plane
                 /\ serves_crtc plane crtc_index = true /\ r = to_int id)).
Proof.
  unfold get_plane_id.
  destruct (drmModeGetPlaneResources dev) as [planes|].
  2:{ intros H. inversion H. left. split; reflexivity. }
  intros H. right. exists planes. split; [reflexivity|].
  destruct (scan_planes_sound _ _ _ _ H) as [E|(id & p & Hin & Hc & E)];
    [left; exact E|].
  right. unfold classify_plane in Hc.
  destruct (drmModeGetPlane dev id) as [plane|] eqn:Ep; [|discriminate].
  destruct (serves_crtc plane crtc_index) eqn:Es; [|discriminate].
  exists id, plane. repeat split; assumption.
Qed.

(** X4.  [get_plane_id] dereferences a NULL pointer exactly when the scan
    reaches, before any primary plane, a plane that serves the crtc and whose
    property list, or one of whose properties, the device does not hand
    out. *)
Theorem get_plane_id_faults_iff :
  get_plane_id dev crtc_index = Fault <->
  exists before id after,
    drmModeGetPlaneResources dev = Some (before ++ id :: after)
    /\ Forall (fun id' => classify_plane dev crtc_index id' = Passed
                          \/ classify_plane dev crtc_index id' = Taken false)
         before
    /\ classify_plane dev crtc_index id = Faulty.
Proof.
  unfold get_plane_id. split.
  - destruct (drmModeGetPlaneResources dev) as [planes|]; [|discriminate].
    generalize (- EINVAL) as ret.
    induction planes as [|id rest IH]; intros ret H; [discriminate|].
    rewrite scan_planes_step in H.
    destruct (classify_plane dev crtc_index id) as [|[|]|] eqn:Ec.
    + destruct (IH _ H) as (b & i & a & E & Hb & Hc).
      inversion E; subst. exists (id :: b), i, a.
      split; [reflexivity|]. split; [|exact Hc].
      constructor; [left; exact Ec | exact Hb].
    + rewrite scan_planes_found in H. discriminate.
    + destruct (IH _ H) as (b & i & a & E & Hb & Hc).
      inversion E; subst. exists (id :: b), i, a.
      split; [reflexivity|]. split; [|exact Hc].
      constructor; [right; exact Ec | exact Hb].
    + exists [], id, rest. split; [reflexivity|].
      split; [constructor | exact Ec].
  - intros (before & id & after & Hres & Hb & Hc). rewrite Hres.
    destruct (scan_planes_not_primary before (id :: after) (- EINVAL) Hb)
      as (ret' & E).
    rewrite E, scan_planes_step, Hc. reflexivity.
Qed.

End PlaneChoice.

Lemma get_plane_id_prefers_first_primary_witness :
  get_plane_id sample_device 0 = Done 34.
Proof.
  apply (get_plane_id_prefers_first_primary sample_device 0 [28; 31] [] 34).
  - reflexivity.
  - constructor; [left; reflexivity|].
    constructor; [right; reflexivity|]. constructor.
  - reflexivity.
Defined.

Lemma get_plane_id_falls_back_to_last_taken_witness :
  get_plane_id device_without_plane 1 = Done 28.
Proof.
  exact (get_plane_id_falls_back_to_last_taken device_without_plane 1 [] [] 28
           eq_refl ltac:(constructor) eq_refl ltac:(constructor)).
Defined.

Lemma get_plane_id_sound_witness :
  (drmModeGetPlaneResources device_without_plane = None /\ -22 = -1)
  \/ (exists planes, drmModeGetPlaneResources device_without_plane = Some planes
        /\ (-22 = - EINVAL
            \/ exists id plane,
                 In id planes
                 /\ drmModeGetPlane device_without_plane id = Some plane
                 /\ serves_crtc plane 0 = true /\ -22 = to_int id)).
Proof.
  exact (get_plane_id_sound device_without_plane 0 (-22) eq_refl).
Defined.

Lemma get_plane_id_faults_iff_witness :
  get_plane_id device_hiding_properties 0 = Fault.
Proof.
  apply (proj2 (get_plane_id_faults_iff device_hiding_properties 0)).
  exists [28], 31, [].
  split; [reflexivity|]. split; [|reflexivity].
  constructor; [left; reflexivity | constructor].
Defined.

Section CrtcMask.

Lemma land_pow2 x n :
  0 <= n ->
  Z.land x (2 ^ n) = if Z.testbit x n then 2 ^ n else 0.
Proof.
  intros Hn. apply Z.bits_inj'. intros m Hm.
  rewrite Z.land_spec, Z.pow2_bits_eqb by exact Hn.
  destruct (Z.eqb_spec n m) as [E|E].
  - subst m. destruct (Z.testbit x n); cbn [andb].
    + rewrite Z.pow2_bits_eqb by exact Hn. rewrite Z.eqb_refl. reflexivity.
    + rewrite Z.bits_0. reflexivity.
  - rewrite andb_false_r.
    destruct (Z.testbit x n).
    + rewrite Z.pow2_bits_eqb by exact Hn.
      destruct (Z.eqb_spec n m); [contradiction | reflexivity].
    + rewrite Z.bits_0. reflexivity.
Qed.

(** X5.  For a crtc index from 0 to 30, a plane serves the crtc exactly when
    bit [crtc_index] of its [possible_crtcs] mask is set. *)
Theorem serves_crtc_is_bit_of_mask (plane : drmModePlane) (crtc_index : Z) :
  0 <= crtc_index < 31 ->
  serves_crtc plane crtc_index = Z.testbit (possible_crtcs plane) crtc_index.
Proof.
  intros H. unfold serves_crtc, shl_int.
  rewrite Z.shiftl_1_l.
  assert (0 < 2 ^ crtc_index < 2 ^ 31) as Hp.
  { split; [apply Z.pow_pos_nonneg; lia|].
    apply Z.pow_lt_mono_r; lia. }
  rewrite to_int_small by lia.
  rewrite to_u32_small by lia.
  rewrite land_pow2 by lia.
  destruct (Z.testbit (possible_crtcs plane) crtc_index).
  - destruct (Z.eqb_spec (2 ^ crtc_index) 0); [lia | reflexivity].
  - reflexivity.
Qed.

End CrtcMask.

Lemma serves_crtc_is_bit_of_mask_witness :
  serves_crtc (mkModePlane 34 3) 1 = true.
Proof.
  exact (serves_crtc_is_bit_of_mask (mkModePlane 34 3) 1 ltac:(lia)).
Defined.

(** ** init_drm_atomic *)

Section Discovery.

Variables (dev : device) (ini : init_drm_result).

(** X6.  When [init_drm_atomic] gets past the discovery, [init_drm] and
    [drmSetClientCap] had returned 0, [get_plane_id] had returned a value
    other than 0, the device has handed out the plane of that number, the
    crtc, the connector and the three property lists, and each table holds,
    in the order of the list, what [drmModeGetProperty] answered for each
    listed property. *)
Theorem init_drm_atomic_discovery_sound (f : discovery) :
  init_drm_atomic_discovery dev ini = Done (Some f) ->
  init_drm_ret ini = 0
  /\ drmSetClientCap dev = 0
  /\ exists ret pp cp np,
       get_plane_id dev (init_crtc_index ini) = Done ret
       /\ ret <> 0
       /\ drmModeGetPlane dev (to_u32 ret) = Some (found_plane f)
       /\ drmModeGetCrtc dev (init_crtc_id ini) = true
       /\ drmModeGetConnector dev (init_connector_id ini) = true
       /\ drmModeObjectGetProperties dev (to_u32 ret) DRM_MODE_OBJECT_PLANE
          = Some pp
       /\ drmModeObjectGetProperties dev (init_crtc_id ini) DRM_MODE_OBJECT_CRTC
          = Some cp
       /\ drmModeObjectGetProperties dev (init_connector_id ini)
            DRM_MODE_OBJECT_CONNECTOR = Some np
       /\ found_plane_props f = map (fun pv => drmModeGetProperty dev (fst pv)) pp
       /\ found_crtc_props f = map (fun pv => drmModeGetProperty dev (fst pv)) cp
       /\ found_connector_props f
          = map (fun pv => drmModeGetProperty dev (fst pv)) np.
Proof.
  unfold init_drm_atomic_discovery.
  destruct (Z.eqb_spec (init_drm_ret ini) 0) as [Ei|Ei]; [|discriminate].
  destruct (Z.eqb_spec (drmSetClientCap dev) 0) as [Ec|Ec]; [|discriminate].
  cbn [negb].
  destruct (get_plane_id dev (init_crtc_index ini)) as [ret|] eqn:Eg;
    [|discriminate].
  destruct (Z.eqb_spec ret 0) as [Er|Er]; [discriminate|].
  cbv zeta.
  destruct (drmModeGetPlane dev (to_u32 ret)) as [plane|] eqn:Ep;
    [|discriminate].
  destruct (drmModeGetCrtc dev (init_crtc_id ini)) eqn:Ecr; [|discriminate].
  destruct (drmModeGetConnector dev (init_connector_id ini)) eqn:Eco;
    [|discriminate].
  cbn [negb].
  destruct (drmModeObjectGetProperties dev (to_u32 ret) DRM_MODE_OBJECT_PLANE)
    as [pp|] eqn:Epp; [|discriminate].
  destruct (drmModeObjectGetProperties dev (init_crtc_id ini) DRM_MODE_OBJECT_CRTC)
    as [cp|] eqn:Ecp; [|discriminate].
  destruct (drmModeObjectGetProperties dev (init_connector_id ini)
              DRM_MODE_OBJECT_CONNECTOR) as [np|] eqn:Enp; [|discriminate].
  intros H. inversion H. subst f. cbn.
  split; [exact Ei|]. split; [exact Ec|].
  exists ret, pp, cp, np. repeat split; assumption.
Qed.

(** X7.  The failure of [get_plane_id] is not caught: when no plane serves
    the crtc it returns [-EINVAL], which is not 0, so [init_drm_atomic] does
    not take its "could not find a suitable plane" exit but goes on with
    plane number 4294967274 ([-EINVAL] as [uint32_t]); if the device answers
    for that number, the initialisation succeeds with a plane the scan never
    chose. *)
Theorem init_drm_atomic_goes_on_without_a_plane
    (plane : drmModePlane) (pp cp np : list (Z * Z)) :
  init_drm_ret ini = 0 ->
  drmSetClientCap dev = 0 ->
  get_plane_id dev (init_crtc_index ini) = Done (- EINVAL) ->
  drmModeGetPlane dev 4294967274 = Some plane ->
  drmModeGetCrtc dev (init_crtc_id ini) = true ->
  drmModeGetConnector dev (init_connector_id ini) = true ->
  drmModeObjectGetProperties dev 4294967274 DRM_MODE_OBJECT_PLANE = Some pp ->
  drmModeObjectGetProperties dev (init_crtc_id ini) DRM_MODE_OBJECT_CRTC = Some cp ->
  drmModeObjectGetProperties dev (init_connector_id ini)
    DRM_MODE_OBJECT_CONNECTOR = Some np ->
  init_drm_atomic_discovery dev ini =
    Done (Some (mkDiscovery plane (get_property_infos dev pp)
                  (get_property_infos dev cp) (get_property_infos dev np))).
Proof.
  intros Hi Hc Hg Hp Hcr Hco Hpp Hcp Hnp.
  unfold init_drm_atomic_discovery.
  rewrite Hi, Hc, Hg. cbn [Z.eqb negb]. cbv zeta.
  change (to_u32 (- EINVAL)) with 4294967274.
  change (- EINVAL =? 0) with false. cbv iota.
  rewrite Hp, Hcr, Hco. cbn [negb]. rewrite Hpp, Hcp, Hnp. reflexivity.
Qed.

End Discovery.

Lemma init_drm_atomic_discovery_sound_witness :
  init_drm_ret sample_init = 0 /\ drmSetClientCap sample_device = 0.
Proof.
  destruct (init_drm_atomic_discovery_sound sample_device sample_init
              (mkDiscovery (mkModePlane 34 3)
                 [Some (mkProp "FB_ID" 16); Some (mkProp "type" 7)]
                 [Some (mkProp "ACTIVE" 21); Some (mkProp "MODE_ID" 22)]
                 [Some (mkProp "CRTC_ID" 20)])
              eq_refl) as (H1 & H2 & _).
  split; assumption.
Defined.

Lemma init_drm_atomic_goes_on_without_a_plane_witness :
  init_drm_atomic_discovery device_answering_any_id sample_init =
    Done (Some (mkDiscovery (mkModePlane 4294967274 2)
                  [Some (mkProp "type" 7)] [Some (mkProp "type" 7)]
                  [Some (mkProp "type" 7)])).
Proof.
  exact (init_drm_atomic_goes_on_without_a_plane device_answering_any_id
           sample_init (mkModePlane 4294967274 2) [(7, 0)] [(7, 0)] [(7, 0)]
           eq_refl eq_refl eq_refl eq_refl eq_refl eq_refl eq_refl eq_refl
           eq_refl).
Defined.

(** ** From the discovered tables to resolved identifiers *)

Section Lookup.

Lemma find_prop_id_skips nm init before : forall rest,
  has_prop nm before = false ->
  find_prop_id nm init (before ++ rest) = find_prop_id nm init rest.
Proof.
  induction before as [|q before IH]; intros rest H; [reflexivity|].
  cbn [has_prop existsb] in H. apply orb_false_iff in H. destruct H as [Hq Hb].
  cbn [app find_prop_id]. rewrite Hq. apply IH. exact Hb.
Qed.

Lemma complete_table_app t1 : forall t2 tbl,
  complete_table (t1 ++ t2) = Some tbl ->
  exists a b, complete_table t1 = Some a /\ complete_table t2 = Some b
              /\ tbl = a ++ b.
Proof.
  induction t1 as [|[p|] t1 IH]; intros t2 tbl H.
  - exists [], tbl. repeat split. exact H.
  - cbn [app complete_table] in H.
    destruct (complete_table (t1 ++ t2)) as [r|] eqn:E; [|discriminate].
    inversion H. subst tbl.
    destruct (IH _ _ E) as (a & b & Ha & Hb & Hr).
    exists (p :: a), b. cbn [complete_table]. rewrite Ha.
    repeat split; [exact Hb | subst r; reflexivity].
  - discriminate.
Qed.

Lemma complete_table_in t : forall tbl p,
  complete_table t = Some tbl -> In p tbl -> In (Some p) t.
Proof.
  induction t as [|[q|] t IH]; intros tbl p H Hin.
  - inversion H. subst. contradiction.
  - cbn [complete_table] in H.
    destruct (complete_table t) as [r|] eqn:E; [|discriminate].
    inversion H. subst tbl. destruct Hin as [Hin|Hin].
    + subst. left. reflexivity.
    + right. eapply IH; [reflexivity | exact Hin].
  - discriminate.
Qed.

(** Resolution on a table built by [get_properties]. *)
Lemma resolution_after_get_properties
    (dev : device) (d : drm) (before after : list (Z * Z)) (prop pv : Z)
    (p : drmModePropertyRes) (req : drmModeAtomicReq) (v : Z) :
  complete_table (get_property_infos dev (before ++ (prop, pv) :: after))
    = Some (plane_props_info (drm_plane d)) ->
  drmModeGetProperty dev prop = Some p ->
  (forall q qv p', In (q, qv) before -> drmModeGetProperty dev q = Some p' ->
                   name p' <> name p) ->
  0 < prop_id p < 2 ^ 31 ->
  plane_id (drm_plane d) <> 0 ->
  add_plane_property d req (plane_id (drm_plane d)) (name p) v =
    (req ++ [mkItem (plane_id (drm_plane d)) (prop_id p) v],
     to_int (Z.of_nat (List.length req) + 1)).
Proof.
  intros Htbl Hp Hbefore Hid Hplane.
  unfold get_property_infos in Htbl. rewrite map_app in Htbl.
  destruct (complete_table_app _ _ _ Htbl) as (a & b & Ha & Hb & E).
  cbn [map fst complete_table] in Hb. rewrite Hp in Hb.
  destruct (complete_table (map (fun pv0 => drmModeGetProperty dev (fst pv0)) after))
    as [r|]; [|discriminate].
  inversion Hb. subst b.
  assert (has_prop (name p) a = false) as Habs.
  { destruct (has_prop (name p) a) eqn:Eh; [|reflexivity]. exfalso.
    unfold has_prop in Eh. apply existsb_exists in Eh.
    destruct Eh as (p' & Hin & Hn). apply String.eqb_eq in Hn.
    pose proof (complete_table_in _ _ _ Ha Hin) as Hin'.
    apply in_map_iff in Hin'. destruct Hin' as ([q qv] & Hq & Hqin).
    exact (Hbefore q qv p' Hqin Hq Hn). }
  unfold add_plane_property. rewrite E.
  rewrite (find_prop_id_skips _ _ _ _ Habs).
  cbn [find_prop_id]. rewrite String.eqb_refl.
  rewrite to_int_small by lia.
  destruct (Z.ltb_spec (prop_id p) 0); [lia|].
  rewrite to_u32_small by lia.
  unfold drmModeAtomicAddProperty.
  destruct (Z.eqb_spec (plane_id (drm_plane d)) 0); [contradiction|].
  destruct (Z.eqb_spec (prop_id p) 0); [lia|].
  reflexivity.
Qed.

(** X9.  An identifier that does not fit in [int] is taken for a missing
    property: when the first entry bearing the name has an identifier from
    2^31 to 2^32 - 1, [add_crtc_property] returns [-EINVAL] and leaves the
    request alone, although the name is in the table. *)
Theorem large_identifier_is_reported_missing
    (d : drm) (before after : list drmModePropertyRes)
    (p : drmModePropertyRes) (req : drmModeAtomicReq) (obj v : Z) :
  crtc_props_info (drm_crtc d) = before ++ p :: after ->
  has_prop (name p) before = false ->
  2 ^ 31 <= prop_id p < 2 ^ 32 ->
  has_prop (name p) (crtc_props_info (drm_crtc d)) = true
  /\ add_crtc_property d req obj (name p) v = (req, - EINVAL).
Proof.
  intros Htbl Habs Hid. split.
  - rewrite Htbl. unfold has_prop. rewrite existsb_app.
    cbn [existsb]. rewrite String.eqb_refl. apply orb_true_r.
  - unfold add_crtc_property. rewrite Htbl.
    rewrite (find_prop_id_skips _ _ _ _ Habs).
    cbn [find_prop_id]. rewrite String.eqb_refl.
    unfold to_int. rewrite Z.mod_small by lia.
    destruct (Z.ltb_spec (prop_id p) (2 ^ 31)); [lia|].
    destruct (Z.ltb_spec (prop_id p - 2 ^ 32) 0); [reflexivity | lia].
Qed.

Lemma discovered_drm_plane ini f slot d :
  discovered_drm ini f slot = Some d ->
  complete_table (found_plane_props f) = Some (plane_props_info (drm_plane d))
  /\ plane_id (drm_plane d) = mp_plane_id (found_plane f).
Proof.
  unfold discovered_drm.
  destruct (complete_table (found_plane_props f)) as [pt|]; [|discriminate].
  destruct (complete_table (found_crtc_props f)) as [ct|]; [|discriminate].
  destruct (complete_table (found_connector_props f)) as [nt|]; [|discriminate].
  intros H. inversion H. split; reflexivity.
Qed.

(** X8.  Discovery followed by resolution finds a property again.  Let
    [init_drm_atomic] have got through on a device whose property lookups
    all answered.  When the device lists for the plane a property whose name
    none of the properties listed before it bears, and whose identifier is
    one the library accepts (from 1 to 2^31 - 1), [add_plane_property] on
    the initialised [struct drm] appends the entry with that identifier and
    returns the new length of the request, whatever is listed after it. *)
Theorem discovered_property_resolves
    (dev : device) (ini : init_drm_result) (f : discovery) (slot : Z) (d : drm)
    (before after : list (Z * Z)) (prop pv : Z)
    (p : drmModePropertyRes) (req : drmModeAtomicReq) (v : Z) :
  init_drm_atomic_discovery dev ini = Done (Some f) ->
  discovered_drm ini f slot = Some d ->
  found_plane_props f = get_property_infos dev (before ++ (prop, pv) :: after) ->
  drmModeGetProperty dev prop = Some p ->
  (forall q qv p', In (q, qv) before -> drmModeGetProperty dev q = Some p' ->
                   name p' <> name p) ->
  0 < prop_id p < 2 ^ 31 ->
  mp_plane_id (found_plane f) <> 0 ->
  add_plane_property (init_drm_atomic d) req (mp_plane_id (found_plane f))
    (name p) v =
    (req ++ [mkItem (mp_plane_id (found_plane f)) (prop_id p) v],
     to_int (Z.of_nat (List.length req) + 1)).
Proof.
  intros _ Hd Hprops Hp Hbefore Hid Hplane.
  destruct (discovered_drm_plane _ _ _ _ Hd) as [Htbl Hpid].
  rewrite Hprops in Htbl. rewrite <- Hpid in *.
  apply (resolution_after_get_properties dev (init_drm_atomic d)
           before after prop pv p req v); assumption.
Qed.

(** X20.  A name that the connector's table does not hold is not reported
    by [add_connector_property]: [prop_id] starts at 0 there, so the
    function goes on and asks the library to add property 0.  Its own
    "no connector property" exit is taken only for a name that is in the
    table (with an identifier that does not fit in [int]). *)
Theorem connector_missing_name_reaches_the_library
    (d : drm) (req : drmModeAtomicReq) (obj : Z) (nm : string) (v : Z) :
  (has_prop nm (connector_props_info (drm_connector d)) = false ->
   add_connector_property d req obj nm v = drmModeAtomicAddProperty req obj 0 v)
  /\ (find_prop_id nm 0 (connector_props_info (drm_connector d)) < 0 ->
      has_prop nm (connector_props_info (drm_connector d)) = true).
Proof.
  split.
  - intros H. unfold add_connector_property.
    rewrite (find_prop_id_absent _ _ _ H). reflexivity.
  - intros H.
    destruct (has_prop nm (connector_props_info (drm_connector d))) eqn:E;
      [reflexivity|].
    rewrite (find_prop_id_absent _ _ _ E) in H. lia.
Qed.

End Lookup.

Lemma discovered_property_resolves_witness :
  add_plane_property
    (init_drm_atomic
       (mkDrm 0 (mkPlane 34 [mkProp "FB_ID" 16; mkProp "type" 7])
          (mkCrtc [mkProp "ACTIVE" 21; mkProp "MODE_ID" 22])
          (mkConnector [mkProp "CRTC_ID" 20]) 41 51 (mkMode 1920 1080)
          0 0 4096))
    [] 34 "type" 1 = ([mkItem 34 7 1], 1).
Proof.
  exact (discovered_property_resolves sample_device sample_init
           (mkDiscovery (mkModePlane 34 3)
              [Some (mkProp "FB_ID" 16); Some (mkProp "type" 7)]
              [Some (mkProp "ACTIVE" 21); Some (mkProp "MODE_ID" 22)]
              [Some (mkProp "CRTC_ID" 20)])
           4096 _ [(16, 0)] [] 7 1 (mkProp "type" 7) [] 1
           eq_refl eq_refl eq_refl eq_refl
           ltac:(intros q qv p' [H|[]] Hq; inversion H; subst;
                 vm_compute in Hq; inversion Hq; discriminate)
           ltac:(simpl; lia) ltac:(simpl; lia)).
Defined.

Lemma large_identifier_is_reported_missing_witness :
  add_crtc_property
    (mkDrm 3 sample_plane (mkCrtc [mkProp "ACTIVE" 21; mkProp "MODE_ID" 4294967000])
       sample_connector 41 51 (mkMode 1920 1080) 0 0 4096)
    [] 41 "MODE_ID" 77 = ([], -22).
Proof.
  exact (proj2 (large_identifier_is_reported_missing
           (mkDrm 3 sample_plane
              (mkCrtc [mkProp "ACTIVE" 21; mkProp "MODE_ID" 4294967000])
              sample_connector 41 51 (mkMode 1920 1080) 0 0 4096)
           [mkProp "ACTIVE" 21] [] (mkProp "MODE_ID" 4294967000) [] 41 77
           eq_refl eq_refl ltac:(simpl; lia))).
Defined.

(** ** The modeset transaction *)

Section ModesetTransaction.

Variable w : World.

Lemma add_plane_property_app d req obj nm v :
  fst (add_plane_property d req obj nm v) =
  req ++ fst (add_plane_property d [] obj nm v).
Proof.
  unfold add_plane_property, drmModeAtomicAddProperty.
  destruct (_ <? 0); cbn [fst]; [rewrite app_nil_r; reflexivity|].
  destruct (_ || _); cbn [fst]; [rewrite app_nil_r|]; reflexivity.
Qed.

Lemma add_crtc_property_app d req obj nm v :
  fst (add_crtc_property d req obj nm v) =
  req ++ fst (add_crtc_property d [] obj nm v).
Proof.
  unfold add_crtc_property, drmModeAtomicAddProperty.
  destruct (_ <? 0); cbn [fst]; [rewrite app_nil_r; reflexivity|].
  destruct (_ || _); cbn [fst]; [rewrite app_nil_r|]; reflexivity.
Qed.

Lemma plane_properties_app d fb_id base :
  plane_properties d fb_id base = base ++ plane_properties d fb_id [].
Proof.
  unfold plane_properties. cbv zeta.
  repeat match goal with
         | |- context [add_plane_property d ?l ?o ?n ?v] =>
             lazymatch l with [] => fail | _ => idtac end;
             rewrite (add_plane_property_app d l o n v);
             let x := fresh "x" in
             set (x := fst (add_plane_property d [] o n v))
         end.
  rewrite <- !app_assoc. reflexivity.
Qed.

Lemma fence_properties_app d req :
  fst (fence_properties d req) = req ++ fst (fence_properties d []).
Proof.
  unfold fence_properties.
  destruct (negb (kms_in_fence_fd d =? -1)); [|rewrite app_nil_r; reflexivity].
  pose proof (add_crtc_property_app d req (crtc_id d) "OUT_FENCE_PTR"
                (to_u64 (kms_out_fence_ptr d))) as Hc.
  destruct (add_crtc_property d req (crtc_id d) "OUT_FENCE_PTR"
              (to_u64 (kms_out_fence_ptr d))) as [req1 r1].
  destruct (add_crtc_property d [] (crtc_id d) "OUT_FENCE_PTR"
              (to_u64 (kms_out_fence_ptr d))) as [req0 r0].
  cbn [fst] in *. subst req1.
  rewrite add_plane_property_app.
  rewrite (add_plane_property_app d req0).
  rewrite <- app_assoc. reflexivity.
Qed.

(** A request is what the modeset block left, followed by the entries of an
    ordinary transaction. *)
Lemma request_app d fb_id base :
  request d fb_id base = base ++ request d fb_id [].
Proof.
  unfold request.
  rewrite fence_properties_app, plane_properties_app.
  rewrite (fence_properties_app d (plane_properties d fb_id [])).
  rewrite <- app_assoc. reflexivity.
Qed.

Lemma add_connector_property_resolves d req nm v :
  connector_resolves d nm = true ->
  add_connector_property d req (connector_id d) nm v =
    (req ++ [mkItem (connector_id d) (connector_prop d nm) v],
     to_int (Z.of_nat (List.length req) + 1)).
Proof.
  unfold connector_resolves, connector_prop, add_connector_property. intros H.
  apply andb_true_iff in H. destruct H as [Hp Hid].
  apply Z.ltb_lt in Hp. apply negb_true_iff in Hid.
  pose proof (find_prop_id_range nm 0 (connector_props_info (drm_connector d))
                ltac:(lia)) as Hr.
  set (p := find_prop_id nm 0 (connector_props_info (drm_connector d))) in *.
  destruct (Z.ltb_spec p 0); [lia|].
  rewrite to_u32_small by lia.
  unfold drmModeAtomicAddProperty. rewrite Hid.
  destruct (Z.eqb_spec p 0); [lia|]. reflexivity.
Qed.

Lemma add_crtc_property_resolves d req nm v :
  crtc_resolves d nm = true ->
  add_crtc_property d req (crtc_id d) nm v =
    (req ++ [mkItem (crtc_id d) (crtc_prop d nm) v],
     to_int (Z.of_nat (List.length req) + 1)).
Proof.
  unfold crtc_resolves, crtc_prop, add_crtc_property. intros H.
  apply andb_true_iff in H. destruct H as [Hp Hid].
  apply Z.ltb_lt in Hp. apply negb_true_iff in Hid.
  pose proof (find_prop_id_range nm (-1) (crtc_props_info (drm_crtc d))
                ltac:(lia)) as Hr.
  set (p := find_prop_id nm (-1) (crtc_props_info (drm_crtc d))) in *.
  destruct (Z.ltb_spec p 0); [lia|].
  rewrite to_u32_small by lia.
  unfold drmModeAtomicAddProperty. rewrite Hid.
  destruct (Z.eqb_spec p 0); [lia|]. reflexivity.
Qed.

Lemma modeset_properties_resolved k d :
  connector_resolves d "CRTC_ID" = true ->
  fst (drmModeCreatePropertyBlob w k) = 0 ->
  crtc_resolves d "MODE_ID" = true ->
  crtc_resolves d "ACTIVE" = true ->
  modeset_properties w k d drmModeAtomicAlloc d =
    (Val (modeset_entries d (snd (drmModeCreatePropertyBlob w k))), d,
     [EvCreatePropertyBlob 0 (snd (drmModeCreatePropertyBlob w k))]).
Proof.
  intros Hc Hb Hm Ha. unfold modeset_properties, drmModeAtomicAlloc.
  rewrite (add_connector_property_resolves d [] _ _ Hc).
  change (to_int (Z.of_nat (List.length (@nil item)) + 1) <? 0) with false.
  cbv iota.
  unfold create_property_blob, bind, emit, ret, return_. simpl.
  rewrite Hb. cbn [Z.eqb negb].
  rewrite (add_crtc_property_resolves d _ _ _ Hm).
  cbn [List.length app].
  change (to_int (Z.of_nat 1 + 1) <? 0) with false. cbv iota.
  rewrite (add_crtc_property_resolves d _ _ _ Ha).
  cbn [List.length app].
  change (to_int (Z.of_nat 2 + 1) <? 0) with false. cbv iota.
  reflexivity.
Qed.

(** The trace of [drm_atomic_commit] once the modeset block has left the
    request [base] and the events [pre]. *)
Lemma drm_atomic_commit_with_base k fb_id fl d base pre :
  (if allows_modeset fl then modeset_properties w k d drmModeAtomicAlloc
   else ret drmModeAtomicAlloc) d = (Val base, d, pre) ->
  trace (drm_atomic_commit w k fb_id fl d) =
    pre ++ EvAtomicCommit (request d fb_id base) fl
             (drmModeAtomicCommit w k (request d fb_id base) fl)
           :: (if drmModeAtomicCommit w k (request d fb_id base) fl =? 0
               then close_events d else []).
Proof.
  intros Hms.
  unfold drm_atomic_commit, call, bind at 1, get.
  fold (allows_modeset fl).
  unfold bind at 1. rewrite Hms.
  unfold request, close_events.
  destruct (fence_properties d (plane_properties d fb_id base))
    as [req out_req].
  cbn [fst].
  unfold atomic_commit, bind, emit, ret, return_, modify. simpl.
  remember (drmModeAtomicCommit w k req fl) as r eqn:Er.
  destruct (Z.eqb_spec r 0) as [E0|E0].
  - rewrite E0 in *.
    destruct out_req; destruct (kms_in_fence_fd d =? -1);
      simpl; rewrite ?app_nil_r; reflexivity.
  - pose proof (proj2 (Z.eqb_neq _ _) E0) as E0'.
    simpl. rewrite E0'. simpl. rewrite ?app_nil_r. reflexivity.
Qed.

(** X10.  The transaction of a modeset, on a device that exposes CRTC_ID on
    the connector and MODE_ID and ACTIVE on the crtc, and once the mode blob
    has been created: one transaction is submitted, after the blob was
    created; it leads with the connector linked to the crtc, the mode blob
    and ACTIVE = 1, and goes on with exactly the entries of an ordinary
    transaction for the same buffer. *)
Theorem modeset_transaction_leads_with_linkage_mode_active
    (k : nat) (fb_id fl : Z) (d : drm) :
  allows_modeset fl = true ->
  connector_resolves d "CRTC_ID" = true ->
  fst (drmModeCreatePropertyBlob w k) = 0 ->
  crtc_resolves d "MODE_ID" = true ->
  crtc_resolves d "ACTIVE" = true ->
  commit_reqs (trace (drm_atomic_commit w k fb_id fl d)) =
    [ modeset_entries d (snd (drmModeCreatePropertyBlob w k))
        ++ request d fb_id [] ]
  /\ exists rest,
       trace (drm_atomic_commit w k fb_id fl d) =
         EvCreatePropertyBlob 0 (snd (drmModeCreatePropertyBlob w k)) :: rest
       /\ filter is_blob rest = [].
Proof.
  intros Hfl Hc Hb Hm Ha.
  rewrite (drm_atomic_commit_with_base k fb_id fl d
             (modeset_entries d (snd (drmModeCreatePropertyBlob w k)))
             [EvCreatePropertyBlob 0 (snd (drmModeCreatePropertyBlob w k))]).
  2:{ rewrite Hfl. apply modeset_properties_resolved; assumption. }
  rewrite request_app. split.
  - cbn [app commit_reqs]. unfold close_events. split_ifs; reflexivity.
  - eexists. split; [reflexivity|].
    unfold close_events. split_ifs; reflexivity.
Qed.

Lemma modeset_properties_blob_fails k d fl :
  allows_modeset fl = true ->
  fst (drmModeCreatePropertyBlob w k) <> 0 ->
  modeset_properties w k d drmModeAtomicAlloc d =
    (Ret (-1), d, blob_events w k d fl).
Proof.
  intros Hfl Hb. unfold modeset_properties, blob_events. rewrite Hfl.
  destruct (add_connector_property d drmModeAtomicAlloc (connector_id d)
              "CRTC_ID" (crtc_id d)) as [req1 r1].
  cbn [fst snd andb].
  destruct (r1 <? 0); cbn [negb]; [reflexivity|].
  unfold create_property_blob, bind, emit, ret, return_. simpl.
  destruct (Z.eqb_spec (fst (drmModeCreatePropertyBlob w k)) 0);
    [contradiction | reflexivity].
Qed.

Lemma drm_atomic_commit_blob_fails k fb_id fl d :
  allows_modeset fl = true ->
  fst (drmModeCreatePropertyBlob w k) <> 0 ->
  drm_atomic_commit w k fb_id fl d = (Val (-1), d, blob_events w k d fl).
Proof.
  intros Hfl Hb.
  unfold drm_atomic_commit, call, bind at 1, get.
  fold (allows_modeset fl). rewrite Hfl.
  unfold bind at 1.
  rewrite (modeset_properties_blob_fails k d fl Hfl Hb). reflexivity.
Qed.

(** A pass whose [drm_atomic_commit] gives up before submitting leaves the
    loop without a transaction. *)
Lemma frame_commit_given_up k l d :
  (forall fb_id,
     drm_atomic_commit w k fb_id (flags l) (drm_at_commit w k d) =
       (Val (-1), drm_at_commit w k d,
        blob_events w k (drm_at_commit w k d) (flags l))) ->
  (forall l', result (atomic_run_frame w k l d) <> Val l')
  /\ commit_reqs (trace (atomic_run_frame w k l d)) = [].
Proof.
  intros Hu.
  pose proof (atomic_run_frame_outcome w k l d) as H.
  destruct H; cbn [result trace fst snd].
  1-5: split; [discriminate | stages; split_ifs; reflexivity].
  - split; [discriminate|].
    rewrite (Hu fb_id) in *.
    match goal with
    | E : (_, _, _) = (_, _, _) |- _ => inversion E; subst
    end.
    stages. split_ifs; reflexivity.
  - exfalso.
    rewrite (Hu fb_id) in *.
    match goal with
    | E : (_, _, _) = (_, _, _) |- _ => inversion E
    end.
Qed.

(** X11.  When [drmModeCreatePropertyBlob] fails in frame 0, [atomic_run]
    is left during frame 0, however long it is observed, and no transaction
    is ever submitted. *)
Theorem blob_failure_ends_run_in_frame_0 (e : egl) (n : nat) (d : drm) :
  fst (drmModeCreatePropertyBlob w 0) <> 0 ->
  (forall l', result (atomic_run w e (S n) d) <> Val l')
  /\ commit_reqs (trace (atomic_run w e (S n) d)) = []
  /\ atomic_run w e (S n) d = atomic_run w e 1 d.
Proof.
  intros Hb. unfold atomic_run.
  destruct (_ || _).
  { repeat split. discriminate. }
  destruct (frame_commit_given_up 0 atomic_run_locals d) as [Hnv Hnc].
  { intros fb_id. apply drm_atomic_commit_blob_fails; [reflexivity | exact Hb]. }
  assert (atomic_run_loop w 1 0 atomic_run_locals d =
          atomic_run_frame w 0 atomic_run_locals d) as E1.
  { rewrite atomic_run_loop_S.
    destruct (atomic_run_frame w 0 atomic_run_locals d)
      as [[[l1|z|] d1] t1]; try reflexivity.
    exfalso. apply (Hnv l1). reflexivity. }
  assert (atomic_run_loop w (S n) 0 atomic_run_locals d =
          atomic_run_loop w 1 0 atomic_run_locals d) as En.
  { replace (S n) with (1 + n)%nat by lia.
    apply atomic_run_loop_halts. rewrite E1. exact Hnv. }
  rewrite En, E1. repeat split; assumption.
Qed.

End ModesetTransaction.

Lemma modeset_transaction_leads_with_linkage_mode_active_witness :
  commit_reqs
    (trace (drm_atomic_commit sample_world 0 50 1536
              (set_kms_in_fence_fd 10 (init_drm_atomic sample_drm)))) =
    [ [ mkItem 51 20 41; mkItem 41 22 77; mkItem 41 21 1 ]
        ++ request (set_kms_in_fence_fd 10 (init_drm_atomic sample_drm)) 50 [] ].
Proof.
  exact (proj1 (modeset_transaction_leads_with_linkage_mode_active
           sample_world 0 50 1536
           (set_kms_in_fence_fd 10 (init_drm_atomic sample_drm))
           eq_refl eq_refl eq_refl eq_refl eq_refl)).
Defined.

Lemma blob_failure_ends_run_in_frame_0_witness :
  commit_reqs
    (trace (atomic_run blob_fails sample_egl 3 (init_drm_atomic sample_drm)))
  = [].
Proof.
  exact (proj1 (proj2 (blob_failure_ends_run_in_frame_0 blob_fails sample_egl 2
           (init_drm_atomic sample_drm) ltac:(simpl; lia)))).
Defined.

(** ** What a run through [N] frames has done *)

Section RunSequences.

Variable w : World.

(** What a pass that goes through leaves in the trace. *)
Lemma frame_passed_facts k l d l' :
  result (atomic_run_frame w k l d) = Val l' ->
  eglDupNativeFenceFDANDROID w k <> -1
  /\ gbm_surface_lock_front_buffer w k <> NULL
  /\ filter is_draw (trace (atomic_run_frame w k l d)) = [EvDraw (i l)]
  /\ filter is_close (trace (atomic_run_frame w k l d)) =
       [EvClose (eglDupNativeFenceFDANDROID w k)]
  /\ filter is_release (trace (atomic_run_frame w k l d)) = release_events l.
Proof.
  pose proof (atomic_run_frame_outcome w k l d) as H.
  destruct H; cbn [result trace fst snd]; intros E; try discriminate.
  split; [assumption|]. split; [assumption|].
  invert_commit; [congruence|].
  unfold drm_at_commit, drm_at_draw. stages.
  cbn [kms_in_fence_fd set_kms_in_fence_fd].
  split_ifs; to_prop; try absurd_path; try contradiction;
    repeat split; reflexivity.
Qed.

(** The last of [S n] passes that all went through. *)
Lemma atomic_run_loop_last p n d l' :
  result (atomic_run_loop w (S n) 0 atomic_run_locals d) = Val l' ->
  exists ln dn tn,
    atomic_run_loop w n 0 atomic_run_locals d = (Val ln, dn, tn)
    /\ result (atomic_run_frame w n ln dn) = Val l'
    /\ filter p (trace (atomic_run_loop w (S n) 0 atomic_run_locals d)) =
         filter p tn ++ filter p (trace (atomic_run_frame w n ln dn)).
Proof.
  rewrite atomic_run_loop_snoc, Nat.add_0_r.
  destruct (atomic_run_loop w n 0 atomic_run_locals d)
    as [[[ln|z|] dn] tn]; cbn [result fst]; try discriminate.
  destruct (atomic_run_frame w n ln dn) as [[r d2] t2] eqn:Ef.
  cbn [result trace fst snd]. intros E. subst r.
  exists ln, dn, tn. rewrite Ef. cbn [result trace fst snd].
  repeat split. apply filter_app.
Qed.

Lemma atomic_run_loop_draws n : forall d l',
  result (atomic_run_loop w n 0 atomic_run_locals d) = Val l' ->
  filter is_draw (trace (atomic_run_loop w n 0 atomic_run_locals d)) =
    map (fun j => EvDraw (to_u32 (Z.of_nat j))) (seq 0 n).
Proof.
  induction n as [|n IH]; intros d l' H; [reflexivity|].
  destruct (atomic_run_loop_last is_draw n d l' H)
    as (ln & dn & tn & En & Hf & Et).
  rewrite Et.
  destruct (frame_passed_facts n ln dn l' Hf) as (_ & _ & Hd & _).
  rewrite Hd.
  destruct (atomic_run_loop_state w n _ _ _ _ En) as (_ & _ & Hi).
  specialize (IH d ln). rewrite En in IH. cbn [result trace fst snd] in IH.
  rewrite (IH eq_refl), Hi, seq_S, map_app. reflexivity.
Qed.

Lemma atomic_run_loop_closes n : forall d l',
  result (atomic_run_loop w n 0 atomic_run_locals d) = Val l' ->
  filter is_close (trace (atomic_run_loop w n 0 atomic_run_locals d)) =
    map (fun j => EvClose (eglDupNativeFenceFDANDROID w j)) (seq 0 n).
Proof.
  induction n as [|n IH]; intros d l' H; [reflexivity|].
  destruct (atomic_run_loop_last is_close n d l' H)
    as (ln & dn & tn & En & Hf & Et).
  rewrite Et.
  destruct (frame_passed_facts n ln dn l' Hf) as (_ & _ & _ & Hc & _).
  rewrite Hc.
  specialize (IH d ln). rewrite En in IH. cbn [result trace fst snd] in IH.
  rewrite (IH eq_refl), seq_S, map_app. reflexivity.
Qed.

Lemma atomic_run_loop_releases n : forall d l',
  result (atomic_run_loop w n 0 atomic_run_locals d) = Val l' ->
  filter is_release (trace (atomic_run_loop w n 0 atomic_run_locals d)) =
    map (fun j => EvReleaseBuffer (gbm_surface_lock_front_buffer w j))
      (seq 0 (n - 1)).
Proof.
  induction n as [|n IH]; intros d l' H; [reflexivity|].
  destruct (atomic_run_loop_last is_release n d l' H)
    as (ln & dn & tn & En & Hf & Et).
  rewrite Et.
  destruct (frame_passed_facts n ln dn l' Hf) as (_ & _ & _ & _ & Hr).
  rewrite Hr.
  destruct (atomic_run_loop_state w n _ _ _ _ En) as (_ & Hbo & _).
  pose proof (IH d ln) as IHn. rewrite En in IHn.
  cbn [result trace fst snd] in IHn. rewrite (IHn eq_refl).
  unfold release_events. rewrite Hbo.
  destruct n as [|m].
  - reflexivity.
  - assert (gbm_surface_lock_front_buffer w m <> NULL) as Hm.
    { assert (result (atomic_run_loop w (S m) 0 atomic_run_locals d) = Val ln)
        as Hs by (rewrite En; reflexivity).
      destruct (atomic_run_loop_last is_release m d ln Hs)
        as (lm & dm & tm & _ & Hfm & _).
      destruct (frame_passed_facts m lm dm ln Hfm) as (_ & Hl & _).
      exact Hl. }
    destruct (Z.eqb_spec (gbm_surface_lock_front_buffer w m) NULL);
      [contradiction|].
    replace (S (S m) - 1)%nat with (S m) by lia.
    replace (S m - 1)%nat with m by lia.
    rewrite seq_S, map_app. reflexivity.
Qed.

(** X12.  In a run that goes through [N] frames the renderer is called [N]
    times, with the frame numbers 0, 1, ..., [N - 1] in this order (as
    [uint32_t], so modulo 2^32). *)
Theorem renderer_called_once_per_frame_in_order
    (e : egl) (N : nat) (d : drm) (l' : locals) :
  result (atomic_run w e N d) = Val l' ->
  filter is_draw (trace (atomic_run w e N d)) =
    map (fun j => EvDraw (to_u32 (Z.of_nat j))) (seq 0 N).
Proof.
  intros H. pose proof (atomic_run_checked _ _ _ _ _ H N) as Ec.
  rewrite Ec in *.
  apply (atomic_run_loop_draws N d l' H).
Qed.

(** X13.  In a run that goes through [N] frames, the fds that the loop
    closes are the [N] fds exported from the GPU fences, each closed once,
    in the order of their export. *)
Theorem exported_fds_closed_once_in_order
    (e : egl) (N : nat) (d : drm) (l' : locals) :
  result (atomic_run w e N d) = Val l' ->
  filter is_close (trace (atomic_run w e N d)) =
    map (fun j => EvClose (eglDupNativeFenceFDANDROID w j)) (seq 0 N).
Proof.
  intros H. pose proof (atomic_run_checked _ _ _ _ _ H N) as Ec.
  rewrite Ec in *.
  apply (atomic_run_loop_closes N d l' H).
Qed.

(** X14.  In a run that goes through [N] frames, the buffers locked in
    frames 0 to [N - 2] have been released, each once and in the order in
    which they were locked; the buffer locked in the last frame is the one
    still held. *)
Theorem buffers_released_once_in_order_but_last
    (e : egl) (N : nat) (d : drm) (l' : locals) :
  result (atomic_run w e N d) = Val l' ->
  filter is_release (trace (atomic_run w e N d)) =
    map (fun j => EvReleaseBuffer (gbm_surface_lock_front_buffer w j))
      (seq 0 (N - 1))
  /\ bo l' = match N with
             | O => NULL
             | S j => gbm_surface_lock_front_buffer w j
             end.
Proof.
  intros H. pose proof (atomic_run_checked _ _ _ _ _ H N) as Ec.
  rewrite Ec in *.
  split; [apply (atomic_run_loop_releases N d l' H)|].
  destruct (atomic_run_loop w N 0 atomic_run_locals d) as [[r d2] t2] eqn:E.
  cbn [result fst] in H. subst r.
  destruct (atomic_run_loop_state w N _ _ _ _ E) as (_ & Hbo & _).
  exact Hbo.
Qed.

End RunSequences.

Lemma renderer_called_once_per_frame_in_order_witness :
  filter is_draw
    (trace (atomic_run sample_world sample_egl 3 (init_drm_atomic sample_drm)))
  = [EvDraw 0; EvDraw 1; EvDraw 2].
Proof.
  exact (renderer_called_once_per_frame_in_order sample_world sample_egl 3
           (init_drm_atomic sample_drm) (mkLocals 1000 3 512)
           ltac:(vm_compute; reflexivity)).
Defined.

Lemma exported_fds_closed_once_in_order_witness :
  filter is_close
    (trace (atomic_run sample_world sample_egl 3 (init_drm_atomic sample_drm)))
  = [EvClose 10; EvClose 11; EvClose 12].
Proof.
  exact (exported_fds_closed_once_in_order sample_world sample_egl 3
           (init_drm_atomic sample_drm) (mkLocals 1000 3 512)
           ltac:(vm_compute; reflexivity)).
Defined.

Lemma buffers_released_once_in_order_but_last_witness :
  filter is_release
    (trace (atomic_run sample_world sample_egl 3 (init_drm_atomic sample_drm)))
  = [EvReleaseBuffer 1000; EvReleaseBuffer 1001].
Proof.
  exact (proj1 (buffers_released_once_in_order_but_last sample_world sample_egl
           3 (init_drm_atomic sample_drm) (mkLocals 1000 3 512)
           ltac:(vm_compute; reflexivity))).
Defined.

(** ** The in-fence field at the start, and a crtc without out-fence *)

Section FenceFields.

Variable w : World.

(** One pass from two states that differ in [kms_in_fence_fd] only: same
    result, same events; same state afterwards when the pass goes through. *)
Lemma atomic_run_frame_stale_in_fence k l d v :
  result (atomic_run_frame w k l (set_kms_in_fence_fd v d)) =
    result (atomic_run_frame w k l d)
  /\ trace (atomic_run_frame w k l (set_kms_in_fence_fd v d)) =
       trace (atomic_run_frame w k l d)
  /\ (forall l', result (atomic_run_frame w k l d) = Val l' ->
        final (atomic_run_frame w k l (set_kms_in_fence_fd v d)) =
          final (atomic_run_frame w k l d)).
Proof.
  rewrite !atomic_run_frame_eq, !import_kms_fence_eq. cbv zeta.
  cbn [kms_out_fence_fd set_kms_in_fence_fd].
  destruct (kms_out_fence_fd d =? -1).
  - rewrite !render_and_flip_eq. cbv zeta.
    change (set_kms_in_fence_fd (eglDupNativeFenceFDANDROID w k)
              (set_kms_in_fence_fd v d))
      with (set_kms_in_fence_fd (eglDupNativeFenceFDANDROID w k) d).
    destruct (_ =? EGL_NO_SYNC_KHR);
      [repeat split; cbn; intros; discriminate|].
    repeat split.
  - destruct (_ =? EGL_NO_SYNC_KHR);
      [repeat split; cbn; intros; discriminate|].
    rewrite !render_and_flip_eq. cbv zeta.
    change (set_kms_in_fence_fd (eglDupNativeFenceFDANDROID w k)
              (set_kms_out_fence_fd (-1) (set_kms_in_fence_fd v d)))
      with (set_kms_in_fence_fd (eglDupNativeFenceFDANDROID w k)
              (set_kms_out_fence_fd (-1) d)).
    destruct (_ =? EGL_NO_SYNC_KHR);
      [repeat split; cbn; intros; discriminate|].
    repeat split.
Qed.

Lemma atomic_run_loop_stale_in_fence n : forall k l d v,
  result (atomic_run_loop w n k l (set_kms_in_fence_fd v d)) =
    result (atomic_run_loop w n k l d)
  /\ trace (atomic_run_loop w n k l (set_kms_in_fence_fd v d)) =
       trace (atomic_run_loop w n k l d).
Proof.
  destruct n as [|n]; intros k l d v; [split; reflexivity|].
  rewrite !atomic_run_loop_S.
  destruct (atomic_run_frame_stale_in_fence k l d v) as (Hr & Ht & Hf).
  destruct (atomic_run_frame w k l (set_kms_in_fence_fd v d))
    as [[r1 d1] t1].
  destruct (atomic_run_frame w k l d) as [[r2 d2] t2].
  cbn [result trace final fst snd] in *. subst r1 t1.
  destruct r2 as [l1|z|]; try (split; reflexivity).
  rewrite (Hf l1 eq_refl).
  destruct (atomic_run_loop w n (S k) l1 d2) as [[r3 d3] t3].
  split; reflexivity.
Qed.

(** X15.  What [kms_in_fence_fd] holds when [atomic_run] is entered ([calloc]
    leaves 0 there, which is not the "no fence" value -1) is never used: the
    result of the run and everything it asks of EGL, GBM and the display are
    the same whatever the field held. *)
Theorem stale_in_fence_is_never_used (e : egl) (n : nat) (d : drm) (v : Z) :
  result (atomic_run w e n (set_kms_in_fence_fd v d)) = result (atomic_run w e n d)
  /\ trace (atomic_run w e n (set_kms_in_fence_fd v d)) = trace (atomic_run w e n d).
Proof.
  unfold atomic_run.
  destruct (_ || _); [split; reflexivity|].
  apply atomic_run_loop_stale_in_fence.
Qed.

Lemma out_fence_not_requested d fb_id base :
  has_prop "OUT_FENCE_PTR" (crtc_props_info (drm_crtc d)) = false ->
  out_fence_requested d fb_id base = false.
Proof.
  intros H. unfold out_fence_requested, fence_properties.
  destruct (negb (kms_in_fence_fd d =? -1)); [|reflexivity].
  rewrite (add_crtc_property_absent _ _ _ _ _ H). reflexivity.
Qed.

(** One pass with no out-fence pending on a crtc without OUT_FENCE_PTR: no
    wait of either kind, and still no out-fence pending afterwards. *)
Lemma frame_without_out_fence k l d :
  has_prop "OUT_FENCE_PTR" (crtc_props_info (drm_crtc d)) = false ->
  kms_out_fence_fd d = -1 ->
  filter is_wait_sync (trace (atomic_run_frame w k l d)) = []
  /\ filter is_client_wait (trace (atomic_run_frame w k l d)) = []
  /\ (forall l', result (atomic_run_frame w k l d) = Val l' ->
        kms_out_fence_fd (final (atomic_run_frame w k l d)) = -1).
Proof.
  intros Hlack Hout.
  assert (forall fb_id base,
            out_fence_requested (drm_at_commit w k d) fb_id base = false) as Hreq.
  { intros fb_id base. apply out_fence_not_requested.
    destruct (same_device_fields _ _ (same_device_at_commit w k d))
      as (_ & Hc & _).
    rewrite Hc. exact Hlack. }
  pose proof (atomic_run_frame_outcome w k l d) as H.
  destruct H; cbn [result final trace fst snd]; try contradiction.
  1-4: stages; rewrite Hout; cbn; repeat split; intros; discriminate.
  - invert_commit; stages; rewrite Hout; cbn; split_ifs;
      repeat split; intros; try discriminate; try reflexivity.
  - invert_commit; [congruence|]. rewrite Hreq.
    unfold accepted_state, drm_at_commit, drm_at_draw.
    stages. rewrite Hout. cbn. split_ifs; repeat split; intros; assumption.
Qed.

Lemma atomic_run_loop_without_out_fence n : forall k l d,
  has_prop "OUT_FENCE_PTR" (crtc_props_info (drm_crtc d)) = false ->
  kms_out_fence_fd d = -1 ->
  filter is_wait_sync (trace (atomic_run_loop w n k l d)) = []
  /\ filter is_client_wait (trace (atomic_run_loop w n k l d)) = [].
Proof.
  induction n as [|n IH]; intros k l d Hlack Hout; [split; reflexivity|].
  rewrite atomic_run_loop_S.
  destruct (frame_without_out_fence k l d Hlack Hout) as (Hw & Hc & Hf).
  pose proof (frame_same_device w k l d _ (atomic_run_frame_outcome w k l d))
    as Hs.
  destruct (atomic_run_frame w k l d) as [[[l1|z|] d1] t1];
    cbn [result final trace fst snd] in *; try (split; assumption).
  destruct (IH (S k) l1 d1) as (Hw' & Hc').
  { destruct (same_device_fields _ _ Hs) as (_ & Hcr & _).
    rewrite Hcr. exact Hlack. }
  { apply (Hf l1). reflexivity. }
  destruct (atomic_run_loop w n (S k) l1 d1) as [[r d2] t2].
  cbn [trace snd] in *. rewrite !filter_app, Hw, Hc, Hw', Hc'.
  split; reflexivity.
Qed.

(** X16.  On a crtc that does not expose OUT_FENCE_PTR no out-fence ever
    comes back, and the loop never waits for the display: over any run there
    is neither a GPU-side wait ([eglWaitSyncKHR]) nor a CPU-side wait
    ([eglClientWaitSyncKHR]); the transactions are submitted one after the
    other without any of them being awaited. *)
Theorem no_out_fence_property_no_wait (e : egl) (n : nat) (d : drm) :
  has_prop "OUT_FENCE_PTR" (crtc_props_info (drm_crtc d)) = false ->
  filter is_wait_sync (trace (atomic_run w e n (init_drm_atomic d))) = []
  /\ filter is_client_wait (trace (atomic_run w e n (init_drm_atomic d))) = [].
Proof.
  intros Hlack. unfold atomic_run.
  destruct (_ || _); [split; reflexivity|].
  apply atomic_run_loop_without_out_fence; [exact Hlack | reflexivity].
Qed.

(** X17.  When [gbm_surface_lock_front_buffer] returns NULL in a pass, the
    pass leaves the loop (by [return -1], or earlier by a failed [assert])
    and, in that pass, no transaction is submitted, the buffer held from the
    pass before is not released, the fd exported from the GPU fence is not
    closed, and the CPU-side wait is not reached. *)
Theorem lock_failure_leaves_everything_as_it_is
    (k : nat) (l : locals) (d : drm) :
  gbm_surface_lock_front_buffer w k = NULL ->
  (result (atomic_run_frame w k l d) = Ret (-1)
   \/ result (atomic_run_frame w k l d) = Abort)
  /\ commit_reqs (trace (atomic_run_frame w k l d)) = []
  /\ filter is_release (trace (atomic_run_frame w k l d)) = []
  /\ filter is_close (trace (atomic_run_frame w k l d)) = []
  /\ filter is_client_wait (trace (atomic_run_frame w k l d)) = [].
Proof.
  intros Hlock.
  pose proof (atomic_run_frame_outcome w k l d) as H.
  destruct H; cbn [result trace fst snd]; try contradiction.
  1-3: split; [right; reflexivity|]; stages; split_ifs; repeat split.
  split; [left; reflexivity|]. stages. split_ifs; repeat split.
Qed.

End FenceFields.

Lemma no_out_fence_property_no_wait_witness :
  filter is_client_wait
    (trace (atomic_run sample_world sample_egl 3
              (init_drm_atomic drm_without_out_fence))) = [].
Proof.
  exact (proj2 (no_out_fence_property_no_wait sample_world sample_egl 3
           drm_without_out_fence eq_refl)).
Defined.

Lemma lock_failure_leaves_everything_as_it_is_witness :
  commit_reqs
    (trace (atomic_run_frame (lock_fails_at 1) 1 (mkLocals 1000 1 512)
              (set_kms_out_fence_fd 20 sample_drm))) = [].
Proof.
  exact (proj1 (proj2 (lock_failure_leaves_everything_as_it_is
           (lock_fails_at 1) 1 (mkLocals 1000 1 512)
           (set_kms_out_fence_fd 20 sample_drm) eq_refl))).
Defined.

(** ** The options of main *)

Section Options.

Variable strtoull : string -> Z.

Lemma handle_option_valid s opt optarg :
  (exists s', handle_option strtoull s opt optarg = inl s')
  <-> valid_option (opt, optarg) = true.
Proof.
  unfold handle_option, valid_option.
  destruct (Ascii.eqb opt "A"); [split; [reflexivity | eexists; reflexivity]|].
  destruct (Ascii.eqb opt "D"); [split; [reflexivity | eexists; reflexivity]|].
  destruct (Ascii.eqb opt "M") eqn:EM.
  - assert (Ascii.eqb opt "m" = false) as Em.
    { apply Ascii.eqb_eq in EM. subst opt. reflexivity. }
    assert (Ascii.eqb opt "V" = false) as EV.
    { apply Ascii.eqb_eq in EM. subst opt. reflexivity. }
    assert (Ascii.eqb opt "l" = false) as El.
    { apply Ascii.eqb_eq in EM. subst opt. reflexivity. }
    rewrite Em, EV, El. cbn [orb andb].
    destruct (mode_of_name optarg); split; intros H;
      try reflexivity; try (eexists; reflexivity);
      try discriminate.
    destruct H as [s' H]. discriminate.
  - destruct (Ascii.eqb opt "m"); [split; [reflexivity | eexists; reflexivity]|].
    destruct (Ascii.eqb opt "V"); [split; [reflexivity | eexists; reflexivity]|].
    destruct (Ascii.eqb opt "l"); [split; [reflexivity | eexists; reflexivity]|].
    cbn [orb andb]. split; intros H; [|discriminate].
    destruct H as [s' H]. discriminate.
Qed.

Lemma handle_option_error s opt optarg r :
  handle_option strtoull s opt optarg = inr r -> r = -1.
Proof.
  unfold handle_option.
  repeat match goal with
         | |- context [if ?c then _ else _] => destruct c
         end;
    try discriminate;
    try (destruct (mode_of_name optarg); try discriminate);
    intros H; inversion H; reflexivity.
Qed.

(** X18.  The option loop of [main] goes through exactly when every option
    is one it knows ([-A], [-D], [-m], [-V], [-l], or [-M] with one of
    smooth, rgba, nv12-2img, nv12-1img); otherwise [main] returns -1 at the
    first option it does not know, whatever comes after it. *)
Theorem option_loop_accepts_exactly_the_known_options
    (opts : list (ascii * string)) (s : settings) :
  ((exists s', parse_options strtoull opts s = inl s')
   <-> forallb valid_option opts = true)
  /\ (forall r, parse_options strtoull opts s = inr r -> r = -1)
  /\ (forall before oa after,
        opts = before ++ oa :: after ->
        forallb valid_option before = true ->
        valid_option oa = false ->
        parse_options strtoull opts s = inr (-1)).
Proof.
  split; [|split].
  - revert s. induction opts as [|[opt optarg] rest IH]; intros s.
    + split; [reflexivity | eexists; reflexivity].
    + cbn [parse_options forallb].
      pose proof (handle_option_valid s opt optarg) as Hv.
      destruct (handle_option strtoull s opt optarg) as [s1|r].
      * rewrite (proj1 Hv) by (eexists; reflexivity). cbn [andb]. apply IH.
      * destruct (valid_option (opt, optarg)).
        { destruct (proj2 Hv eq_refl) as [s' C]. discriminate. }
        cbn [andb]. split; intros H; [|discriminate].
        destruct H as [s' H]. discriminate.
  - revert s. induction opts as [|[opt optarg] rest IH]; intros s r H.
    + discriminate.
    + cbn [parse_options] in H.
      destruct (handle_option strtoull s opt optarg) as [s1|r1] eqn:E.
      * exact (IH _ _ H).
      * inversion H. subst. exact (handle_option_error _ _ _ _ E).
  - intros before [opt optarg] after Hopts Hb Hbad. subst opts.
    revert s. induction before as [|[o a] before IH]; intros s.
    + cbn [app parse_options].
      pose proof (handle_option_valid s opt optarg) as Hv.
      destruct (handle_option strtoull s opt optarg) as [s1|r] eqn:E.
      * rewrite (proj1 Hv) in Hbad by (eexists; reflexivity). discriminate.
      * rewrite (handle_option_error _ _ _ _ E). reflexivity.
    + cbn [forallb] in Hb. apply andb_true_iff in Hb. destruct Hb as [Ho Hb].
      cbn [app parse_options].
      destruct (proj2 (handle_option_valid s o a) Ho) as [s1 E]. rewrite E.
      apply IH. exact Hb.
Qed.

Lemma handle_option_keeps_mode s opt optarg s' :
  sets_mode (opt, optarg) = false ->
  handle_option strtoull s opt optarg = inl s' ->
  mode_setting s' = mode_setting s /\ video s' = video s.
Proof.
  unfold sets_mode, handle_option. cbn [fst]. intros Hm.
  apply orb_false_iff in Hm. destruct Hm as [HM HV]. rewrite HM, HV.
  repeat match goal with
         | |- context [if ?c then _ else _] => destruct c
         end;
    intros H; inversion H; split; reflexivity.
Qed.

Lemma parse_options_keeps_mode opts : forall s s',
  forallb (fun oa => negb (sets_mode oa)) opts = true ->
  parse_options strtoull opts s = inl s' ->
  mode_setting s' = mode_setting s /\ video s' = video s.
Proof.
  induction opts as [|[opt optarg] rest IH]; intros s s' Hno H.
  - inversion H. split; reflexivity.
  - cbn [forallb] in Hno. apply andb_true_iff in Hno. destruct Hno as [Ho Hr].
    apply negb_true_iff in Ho.
    cbn [parse_options] in H.
    destruct (handle_option strtoull s opt optarg) as [s1|r] eqn:E;
      [|discriminate].
    destruct (handle_option_keeps_mode _ _ _ _ Ho E) as [Hm Hv].
    destruct (IH _ _ Hr H) as [Hm' Hv'].
    split; congruence.
Qed.

Lemma parse_options_app a : forall b s,
  parse_options strtoull (a ++ b) s =
  match parse_options strtoull a s with
  | inl s' => parse_options strtoull b s'
  | inr r => inr r
  end.
Proof.
  induction a as [|[opt optarg] a IH]; intros b s; [reflexivity|].
  cbn [app parse_options].
  destruct (handle_option strtoull s opt optarg); [apply IH | reflexivity].
Qed.

(** X19.  The last [-M] or [-V] decides what is drawn.  After a last
    [-V file] the cube is the video cube on that file.  After a last
    [-M name] the mode is the one named and the cube is never the video
    cube, even when an earlier [-V] had named a file: [run] then ignores
    the file. *)
Theorem last_mode_option_decides_the_cube
    (before after : list (ascii * string)) (opt : ascii) (optarg : string)
    (s s' : settings) :
  parse_options strtoull (before ++ (opt, optarg) :: after) s = inl s' ->
  forallb (fun oa => negb (sets_mode oa)) after = true ->
  (opt = "V"%char ->
     mode_setting s' = VIDEO /\ cube_init_of s' = CubeVideo (Some optarg))
  /\ (opt = "M"%char ->
        mode_of_name optarg = Some (mode_setting s')
        /\ forall file, cube_init_of s' <> CubeVideo file).
Proof.
  intros Hparse Hafter.
  rewrite parse_options_app in Hparse.
  destruct (parse_options strtoull before s) as [s1|r]; [|discriminate].
  cbn [parse_options] in Hparse.
  destruct (handle_option strtoull s1 opt optarg) as [s2|r] eqn:E;
    [|discriminate].
  destruct (parse_options_keeps_mode _ _ _ Hafter Hparse) as [Hm Hv].
  split; intros Hopt; subst opt.
  - unfold handle_option in E. cbn in E. inversion E. subst s2.
    cbn [mode_setting video] in *.
    split; [exact Hm|]. unfold cube_init_of. rewrite Hm, Hv. reflexivity.
  - unfold handle_option in E. cbn in E.
    destruct (mode_of_name optarg) as [m|] eqn:Em; [|discriminate].
    inversion E. subst s2. cbn [mode_setting] in Hm.
    split; [rewrite Hm; reflexivity|].
    intros file. unfold cube_init_of. rewrite Hm.
    unfold mode_of_name in Em.
    repeat match type of Em with
           | (if ?c then _ else _) = _ => destruct c
           end;
      inversion Em; discriminate.
Qed.

End Options.

Lemma option_loop_accepts_exactly_the_known_options_witness :
  parse_options (fun _ => 0)
    [("A"%char, ""%string); ("M"%char, "cube"%string); ("l"%char, ""%string)]
    default_settings = inr (-1).
Proof.
  exact (proj2 (proj2 (option_loop_accepts_exactly_the_known_options
           (fun _ => 0)
           [("A"%char, ""%string); ("M"%char, "cube"%string); ("l"%char, ""%string)]
           default_settings))
           [("A"%char, ""%string)] ("M"%char, "cube"%string)
           [("l"%char, ""%string)] eq_refl eq_refl eq_refl).
Defined.

Lemma last_mode_option_decides_the_cube_witness :
  mode_of_name "rgba" =
    Some (mode_setting
            (mkSettings "/dev/dri/card0" (Some "a.mp4"%string) RGBA
               DRM_FORMAT_MOD_INVALID 1 0)).
Proof.
  exact (proj1 (proj2 (last_mode_option_decides_the_cube (fun _ => 0)
           [("V"%char, "a.mp4"%string)] [("A"%char, ""%string)]
           "M"%char "rgba"%string default_settings
           (mkSettings "/dev/dri/card0" (Some "a.mp4"%string) RGBA
              DRM_FORMAT_MOD_INVALID 1 0)
           eq_refl eq_refl) eq_refl)).
Defined.

Lemma connector_missing_name_reaches_the_library_witness :
  add_connector_property sample_drm [] 51 "MODE_ID" 77 =
    drmModeAtomicAddProperty [] 51 0 77.
Proof.
  exact (proj1 (connector_missing_name_reaches_the_library sample_drm [] 51
                  "MODE_ID" 77) eq_refl).
Defined.
